(** * webaudio-tests: the sample collector and the waveform reconciler

    A shallow embedding of the capture pipeline of [src/App.tsx]:
    [createAnalyserWithDataSink] (allocation of the sink), [gatherData]
    (one tick of the sampling loop), [clearData] (the reconciler) and the
    polyline part of [drawData].

    JavaScript numbers are IEEE 754 binary64 values; they are modelled by
    the Standard Library's [spec_float] at precision 53 and maximal
    exponent 1024, so that every [+], [-], [*], [/] and comparison of the
    source rounds and compares as it does in the browser. *)

From Stdlib Require Import ZArith List Bool Lia.
From Stdlib Require Import Floats.SpecFloat.
From stdpp Require Import base decidable option list sorting.
Import ListNotations.

Local Open Scope Z_scope.

(** ** JavaScript numbers *)

Module Num.

Definition number : Type := spec_float.

Definition prec : Z := 53.
Definition emax : Z := 1024.

Definition add (x y : number) : number := SFadd prec emax x y.
Definition sub (x y : number) : number := SFsub prec emax x y.
Definition mul (x y : number) : number := SFmul prec emax x y.
Definition div (x y : number) : number := SFdiv prec emax x y.

(** [x < y], [x <= y] and [x >= y]; each is false as soon as one side
    is NaN. *)
Definition lt (x y : number) : bool := SFltb x y.
Definition le (x y : number) : bool := SFleb x y.
Definition ge (x y : number) : bool := SFleb y x.

(** The number [m * 2^e], rounded to nearest even. *)
Definition dyadic (m e : Z) : number := binary_normalize prec emax m e false.

Definition of_Z (z : Z) : number := dyadic z 0.
Definition of_nat (n : nat) : number := of_Z (Z.of_nat n).

Definition zero : number := of_Z 0.
Definition one : number := of_Z 1.
Definition two : number := of_Z 2.
Definition nan : number := S754_nan.

(** The value of an array element used as a number: [undefined]
    converts to NaN. *)
Definition of_element (v : option Z) : number :=
  match v with
  | Some z => of_Z z
  | None => nan
  end.

End Num.

Abbreviation number := Num.number.

#[global] Arguments Num.add : simpl never.
#[global] Arguments Num.sub : simpl never.
#[global] Arguments Num.mul : simpl never.
#[global] Arguments Num.div : simpl never.
#[global] Arguments Num.lt : simpl never.
#[global] Arguments Num.le : simpl never.
#[global] Arguments Num.ge : simpl never.
#[global] Arguments Num.dyadic : simpl never.
#[global] Arguments Num.of_Z : simpl never.

#[global] Instance spec_float_eq_dec : EqDecision spec_float.
Proof. solve_decision. Defined.

(** ** Objects used as maps from numbers

    [dataMap[time] = v] turns [time] into a property key, the string
    [Number::toString(time)].  That string determines the number up to
    the sign of zero (both zeros print as "0"), and [parseFloat] reads it
    back, so a key is represented by the number it prints: [ToPropertyKey]
    normalises the zero and [parseFloat] is the identity on keys.

    [Object.entries] lists the own properties in the order of
    OrdinaryOwnPropertyKeys: first the keys that are array indices (the
    integers from 0 to 2^32 - 2) in ascending numeric order, then all other
    keys in the order in which they were created.  The object is kept as
    the list of its properties in exactly that order. *)

Module Obj.

Definition key : Type := number.

Definition ToPropertyKey (x : number) : key :=
  match x with
  | S754_zero _ => S754_zero false
  | _ => x
  end.

Definition parseFloat (k : key) : number := k.

(** [Some n] when the key is the array index [n]. *)
Definition array_index (k : key) : option Z :=
  match k with
  | S754_zero _ => Some 0
  | S754_finite false m e =>
      let n := Z.shiftl (Zpos m) e in
      if (Z.shiftl n (- e) =? Zpos m) && (n <=? 4294967294)
      then Some n else None
  | _ => None
  end.

Section Properties.
Context {V : Type}.

Definition t : Type := list (key * V).

Definition empty : t := [].

Definition has (k : key) (o : t) : bool :=
  existsb (fun p => bool_decide (fst p = k)) o.

Fixpoint get (k : key) (o : t) : option V :=
  match o with
  | [] => None
  | (k', v) :: o' => if decide (k' = k) then Some v else get k o'
  end.

(** Assignment to an existing property keeps its place. *)
Fixpoint overwrite (k : key) (v : V) (o : t) : t :=
  match o with
  | [] => []
  | (k', v') :: o' =>
      if decide (k' = k) then (k, v) :: o' else (k', v') :: overwrite k v o'
  end.

(** A new array index goes before the first property that is not a
    smaller array index. *)
Fixpoint insert_index (n : Z) (k : key) (v : V) (o : t) : t :=
  match o with
  | [] => [(k, v)]
  | (k', v') :: o' =>
      match array_index k' with
      | Some n' =>
          if n' <? n then (k', v') :: insert_index n k v o'
          else (k, v) :: o
      | None => (k, v) :: o
      end
  end.

(** [o[k] = v] *)
Definition set (k : key) (v : V) (o : t) : t :=
  if has k o then overwrite k v o
  else match array_index k with
       | Some n => insert_index n k v o
       | None => o ++ [(k, v)]
       end.

(** [Object.entries(o)] *)
Definition entries (o : t) : list (key * V) := o.

Definition keys (o : t) : list key := map fst o.

End Properties.

Arguments t : clear implicits.

End Obj.

(** ** The data sink *)

Module Frame.
(** One element of [rawData]: [data] is a [Uint8Array]. *)
Record t : Type := mk { timeStart : number; data : list Z }.
End Frame.

(** Reading [arr[j]] from a typed array gives a byte, or [undefined] past
    the end of the array; [None] stands for [undefined]. *)
Abbreviation element := (option Z).

Record DataSink : Type := mkDataSink {
  sampleRate : number;
  bufferLength : nat;
  maxBufferIndex : nat;
  rawData : list Frame.t;
  data : list element
}.

(** [dataSink.data = d] and [dataSink.rawData = r]: every other field
    keeps its value. *)
Definition with_data (dataSink : DataSink) (d : list element) : DataSink :=
  mkDataSink (sampleRate dataSink) (bufferLength dataSink)
             (maxBufferIndex dataSink) (rawData dataSink) d.

Definition with_rawData (dataSink : DataSink) (r : list Frame.t) : DataSink :=
  mkDataSink (sampleRate dataSink) (bufferLength dataSink)
             (maxBufferIndex dataSink) r (data dataSink).

(** [TypeError]: a property of [undefined] was read or set.
    [CanvasError]: [getCanvas] found no canvas or no 2D context. *)
Inductive error : Type :=
| TypeError
| CanvasError.

(** How a call ends: normally with the sink as it then is, or by an
    exception, again with the sink as the exception leaves it. *)
Inductive outcome : Type :=
| Normal (ds : DataSink)
| Threw (e : error) (ds : DataSink).

Definition sink_after (o : outcome) : DataSink :=
  match o with
  | Normal ds => ds
  | Threw _ ds => ds
  end.

(** ** [createAnalyserWithDataSink] *)

Definition Uint8Array (n : nat) : list Z := repeat 0 n.

Definition fresh_frame (bufferLength : nat) : Frame.t :=
  Frame.mk (Num.of_Z (-1)) (Uint8Array bufferLength).

(** [for (i = 0; i < maxBufferIndex; i += 1) rawData.push(...)], with [n]
    the number of iterations still to run. *)
Fixpoint push_frames (bufferLength n : nat) (rawData : list Frame.t)
  : list Frame.t :=
  match n with
  | O => rawData
  | S n' => push_frames bufferLength n' (rawData ++ [fresh_frame bufferLength])
  end.

(** The sink built for a context sample rate, an analyser bin count and a
    number of frames. *)
Definition createDataSink (rate : number) (bufferLength maxBufferIndex : nat)
  : DataSink :=
  let dataSink := mkDataSink rate bufferLength maxBufferIndex [] [] in
  with_rawData dataSink
    (push_frames bufferLength maxBufferIndex (rawData dataSink)).

Definition fftSize : nat := 2048.
Definition frequencyBinCount : nat := Nat.div fftSize 2.

(** The source fixes [fftSize = 2048] and [maxBufferIndex: 100]. *)
Definition createAnalyserWithDataSink (rate : number) : DataSink :=
  createDataSink rate frequencyBinCount 100.

(** ** [clearData] *)

(** The inner loop over [j], started at index [j] with [n] iterations left. *)
Fixpoint fill_frame (frameTimeInc : number) (samples : list Z)
    (j n : nat) (time : number) (dataMap : Obj.t element) : Obj.t element :=
  match n with
  | O => dataMap
  | S n' =>
      fill_frame frameTimeInc samples (S j) n' (Num.add time frameTimeInc)
                 (Obj.set (Obj.ToPropertyKey time) (samples !! j) dataMap)
  end.

(** The body of the outer loop over [i]. *)
Definition fill_step (frameTimeInc : number) (bufferLength : nat)
    (dataMap : Obj.t element) (f : Frame.t) : Obj.t element :=
  if Num.lt (Frame.timeStart f) Num.zero then dataMap
  else fill_frame frameTimeInc (Frame.data f) 0 bufferLength
                  (Frame.timeStart f) dataMap.

Definition build_dataMap (dataSink : DataSink) : Obj.t element :=
  let frameTimeInc := Num.div Num.one (sampleRate dataSink) in
  fold_left (fill_step frameTimeInc (bufferLength dataSink))
            (rawData dataSink) Obj.empty.

(** The state of the second loop. *)
Record window : Type := mkWindow {
  w_start : number;
  w_end : number;
  outputData : list element
}.

Definition accepts (w : window) (fTime : number) : bool :=
  Num.ge fTime (w_start w) && Num.le fTime (w_end w).

(** The body of the loop over [entries]. *)
Definition thin_step (epsilon : number) (w : window) (entry : Obj.key * element)
  : window :=
  let fTime := Obj.parseFloat (fst entry) in
  if accepts w fTime
  then mkWindow (Num.add (w_start w) (Num.mul Num.two epsilon))
                (Num.add (w_end w) (Num.mul Num.two epsilon))
                (outputData w ++ [snd entry])
  else w.

Definition epsilon_of (dataSink : DataSink) : number :=
  Num.mul Num.one (Num.div Num.one (sampleRate dataSink)).

Definition initial_window (epsilon : number) (f0 : Frame.t) : window :=
  mkWindow (Num.sub (Frame.timeStart f0) epsilon)
           (Num.add (Frame.timeStart f0) epsilon)
           [].

(** [rawData[0].timeStart] throws when [rawData] has no element 0; that
    happens after the map is built and before anything is assigned. *)
Definition clearData (dataSink : DataSink) : outcome :=
  let dataMap := build_dataMap dataSink in
  let epsilon := epsilon_of dataSink in
  match rawData dataSink !! 0%nat with
  | None => Threw TypeError dataSink
  | Some f0 =>
      let entries := Obj.entries dataMap in
      let final := fold_left (thin_step epsilon) entries
                             (initial_window epsilon f0) in
      Normal (with_data dataSink (outputData final))
  end.

(** ** [drawData]

    Only the path between [beginPath()] and [stroke()] is modelled: the
    surface is cleared first and the grid, the axes and the stroke style
    do not change the vertices. *)

Record canvas : Type := mkCanvas { width : Z; height : Z }.

Definition cPlotPadding : number := Num.of_Z 40.

Inductive path_op : Type :=
| moveTo (x y : number)
| lineTo (x y : number).

Definition vertex_x (p : path_op) : number :=
  match p with
  | moveTo x _ => x
  | lineTo x _ => x
  end.

Definition vertex_y (p : path_op) : number :=
  match p with
  | moveTo _ y => y
  | lineTo _ y => y
  end.

Definition getY (c : canvas) (v : element) : number :=
  Num.div (Num.mul (Num.of_element v) (Num.of_Z (height c))) (Num.of_Z 256).

(** [for (i = 1; i < data.length; i += 1)], at index [i] with [n]
    iterations left. *)
Fixpoint plot_loop (c : canvas) (xIncrement : number) (samples : list element)
    (i n : nat) (x : number) : list path_op :=
  match n with
  | O => []
  | S n' =>
      lineTo x (getY c (mjoin (samples !! i)))
        :: plot_loop c xIncrement samples (S i) n' (Num.add x xIncrement)
  end.

Definition xIncrement_of (c : canvas) (dataSink : DataSink) : number :=
  Num.div (Num.sub (Num.of_Z (width c)) cPlotPadding)
          (Num.of_nat (length (data dataSink))).

Definition drawData (c : canvas) (dataSink : DataSink) : list path_op :=
  let xIncrement := xIncrement_of c dataSink in
  moveTo Num.zero (getY c (mjoin (data dataSink !! 0%nat)))
    :: plot_loop c xIncrement (data dataSink) 1
                 (length (data dataSink) - 1) cPlotPadding.

(** ** [gatherData]: one tick of the sampling loop *)

(** What a tick reads from outside: the audio clock, the analyser's
    current time-domain bytes and the canvas, if there is one. *)
Record tick_env : Type := mkEnv {
  currentTime : number;
  timeDomain : list Z;
  the_canvas : option canvas
}.

(** [analyser.getByteTimeDomainData(arr)] overwrites the array from its
    start; bytes that do not fit are dropped and elements past the
    analyser's data stay as they were. *)
Definition getByteTimeDomainData (bytes arr : list Z) : list Z :=
  firstn (length arr) bytes ++ skipn (length bytes) arr.

(** How a tick ends.  [Stopped]: [clearData] and [drawData] ran and the
    tick returned without scheduling anything.  [Scheduled]: a frame was
    written and [requestAnimationFrame] was given the tick of [nextIndex].
    [Failed]: an exception left the tick; nothing is scheduled. *)
Inductive tick_outcome : Type :=
| Stopped (ds : DataSink) (drawn : list path_op)
| Scheduled (ds : DataSink) (nextIndex : nat)
| Failed (e : error) (ds : DataSink).

Definition stop_test (env : tick_env) (dataSink : DataSink)
    (endTime : number) (currentIndex : nat) : bool :=
  Num.ge (currentTime env) endTime
  || (maxBufferIndex dataSink <? currentIndex)%nat.

(** [logData] only prints the sink and is left out.  In the sampling
    branch [rawData[currentIndex]] is read first: when it is [undefined],
    setting its [timeStart] throws. *)
Definition gatherData (env : tick_env) (dataSink : DataSink)
    (endTime : number) (currentIndex : nat) : tick_outcome :=
  if stop_test env dataSink endTime currentIndex then
    match clearData dataSink with
    | Threw e ds' => Failed e ds'
    | Normal ds' =>
        match the_canvas env with
        | None => Failed CanvasError ds'
        | Some c => Stopped ds' (drawData c ds')
        end
    end
  else
    match rawData dataSink !! currentIndex with
    | None => Failed TypeError dataSink
    | Some f =>
        let f' := Frame.mk (currentTime env)
                    (getByteTimeDomainData (timeDomain env) (Frame.data f)) in
        Scheduled (with_rawData dataSink (<[currentIndex := f']> (rawData dataSink)))
                  (S currentIndex)
    end.

(** ** The loop of ticks *)

Definition tick_sink (o : tick_outcome) : DataSink :=
  match o with
  | Stopped ds _ => ds
  | Scheduled ds _ => ds
  | Failed _ ds => ds
  end.

(** [requestAnimationFrame(() => gatherData(..., currentIndex + 1))]: the
    ticks that follow one another, at most [n] of them, each reading the
    environment of its own index. *)
Fixpoint ticks (n : nat) (env : nat -> tick_env) (dataSink : DataSink)
    (endTime : number) (currentIndex : nat) : tick_outcome :=
  match n with
  | O => Scheduled dataSink currentIndex
  | S n' =>
      match gatherData (env currentIndex) dataSink endTime currentIndex with
      | Scheduled ds' nextIndex => ticks n' env ds' endTime nextIndex
      | o => o
      end
  end.

(** * Notions used in the statements *)

(** ** Numbers and keys *)

Definition is_nan (x : number) : bool :=
  match x with
  | S754_nan => true
  | _ => false
  end.

Definition not_nan (k : Obj.key) : bool := negb (is_nan k).

(** The number of keys of a list that satisfy a test. *)
Fixpoint count_if (P : Obj.key -> bool) (l : list Obj.key) : nat :=
  match l with
  | [] => O
  | k :: l' => ((if P k then 1 else 0) + count_if P l')%nat
  end.

(** ** Frames *)

(** A frame is populated when [timeStart >= 0]. *)
Definition populated (f : Frame.t) : bool :=
  Num.ge (Frame.timeStart f) Num.zero.

Definition populated_count (frames : list Frame.t) : nat :=
  length (List.filter populated frames).

(** ** The assignments of the first loop of [clearData] *)

(** The key reached from [t] after [j] rounds of [time += frameTimeInc]. *)
Definition accumulated_time (frameTimeInc t : number) (j : nat) : number :=
  Nat.iter j (fun time => Num.add time frameTimeInc) t.

(** The assignments [dataMap[time] = data[j]] of one frame, in order. *)
Fixpoint frame_writes (frameTimeInc : number) (samples : list Z)
    (j n : nat) (time : number) : list (Obj.key * element) :=
  match n with
  | O => []
  | S n' =>
      (Obj.ToPropertyKey time, samples !! j)
        :: frame_writes frameTimeInc samples (S j) n' (Num.add time frameTimeInc)
  end.

Definition step_writes (frameTimeInc : number) (bufferLength : nat)
    (f : Frame.t) : list (Obj.key * element) :=
  if Num.lt (Frame.timeStart f) Num.zero then []
  else frame_writes frameTimeInc (Frame.data f) 0 bufferLength (Frame.timeStart f).

Definition writes (dataSink : DataSink) : list (Obj.key * element) :=
  let frameTimeInc := Num.div Num.one (sampleRate dataSink) in
  concat (map (step_writes frameTimeInc (bufferLength dataSink))
              (rawData dataSink)).

Definition perform (o : Obj.t element) (w : Obj.key * element) : Obj.t element :=
  Obj.set (fst w) (snd w) o.

(** The time the specification gives to sample [j] of a frame that starts
    at [t]: [t + j / sampleRate]. *)
Definition spec_sample_time (rate t : number) (j : nat) : number :=
  Num.add t (Num.div (Num.of_nat j) rate).

(** ** The acceptances of the second loop of [clearData] *)

Definition bounds : Type := number * number.

Definition shift (epsilon : number) (b : bounds) : bounds :=
  (Num.add (fst b) (Num.mul Num.two epsilon),
   Num.add (snd b) (Num.mul Num.two epsilon)).

Definition within (b : bounds) (fTime : number) : bool :=
  Num.ge fTime (fst b) && Num.le fTime (snd b).

(** How many of the keys the loop accepts, from the bounds [b] on. *)
Fixpoint accepted (epsilon : number) (ks : list Obj.key) (b : bounds) : nat :=
  match ks with
  | [] => O
  | k :: ks' =>
      if within b (Obj.parseFloat k) then S (accepted epsilon ks' (shift epsilon b))
      else accepted epsilon ks' b
  end.

(** ** The abscissas of the polyline *)

(** The abscissa reached from the padding after [j] rounds of
    [x += xIncrement]. *)
Definition accumulated_x (xIncrement : number) (j : nat) : number :=
  Nat.iter j (fun x => Num.add x xIncrement) cPlotPadding.

(** ** Sinks and environments of the examples *)

(** [n / 4]: the times of the scenario are multiples of the sample period. *)
Definition quarter (n : Z) : number := Num.dyadic n (-2).

(** capacity 3, frame width 2, sample rate 4, and the three frames
    [{0, [10, 20]}], [{0.5, [30, 40]}], [{1.0, [50, 60]}]. *)
Definition scenario : DataSink :=
  mkDataSink (Num.of_Z 4) 2 3
    [Frame.mk (quarter 0) [10; 20];
     Frame.mk (quarter 2) [30; 40];
     Frame.mk (quarter 4) [50; 60]]
    [].

Definition scenario_entries : list (Obj.key * element) :=
  Obj.entries (build_dataMap scenario).

Definition scenario_window : window :=
  initial_window (epsilon_of scenario) (Frame.mk (quarter 0) [10; 20]).

(** One frame of eleven samples taken at time 0, at ten samples a second. *)
Definition tenth_sink : DataSink :=
  mkDataSink (Num.of_Z 10) 11 1
    [Frame.mk Num.zero [0; 1; 2; 3; 4; 5; 6; 7; 8; 9; 10]] [].

(** One frame of six samples taken at time 0, at 48000 samples a second. *)
Definition audio_rate_sink : DataSink :=
  mkDataSink (Num.of_Z 48000) 6 1 [Frame.mk Num.zero [0; 1; 2; 3; 4; 5]] [].

(** The clock stays at 0 (a context that is not running) and the analyser
    gives silence. *)
Definition stalled : tick_env :=
  mkEnv Num.zero (repeat 128 fftSize) (Some (mkCanvas 1000 1000)).

(** * The rest of the component

    The parts of [App] around the capture pipeline: the lazily created
    audio context, [getCanvas], [drawAxes], [clear] and the handlers of the
    two display toggles.  [drawGrid] is kept as one operation of the
    surface; its lines are not modelled. *)

(** ** [getAudioContext] *)

(** [aCtxRef.current] is [None] until the first call; [fresh] is the
    context that [new AudioContext()] would build at this call.  The result
    is the context returned and the reference as the call leaves it. *)
Definition getAudioContext {Ctx : Type} (aCtxRef : option Ctx) (fresh : Ctx)
  : Ctx * option Ctx :=
  match aCtxRef with
  | Some aCtx => (aCtx, aCtxRef)
  | None => (fresh, Some fresh)
  end.

(** ** [getCanvas], [drawAxes] and [clear] *)

(** What is put on the surface: a cleared rectangle, the grid of
    [drawGrid], or a stroked path. *)
Inductive canvas_op : Type :=
| clearRect (x y w h : number)
| grid
| stroke (path : list path_op).

(** [canvasRef.current] with a 2D context, or the [Error] that is thrown
    without one. *)
Definition getCanvas (canvasRef : option canvas) : canvas + error :=
  match canvasRef with
  | Some c => inl c
  | None => inr CanvasError
  end.

Definition drawAxes (c : canvas) : list canvas_op :=
  [stroke [moveTo Num.zero (Num.div (Num.of_Z (height c)) Num.two);
           lineTo (Num.of_Z (width c)) (Num.div (Num.of_Z (height c)) Num.two)];
   stroke [moveTo cPlotPadding Num.zero;
           lineTo cPlotPadding (Num.of_Z (height c))]].

(** The values of the three [useState] cells that one rendering of [App]
    sees. *)
Record toggles : Type := mkToggles {
  eLogData : bool;
  showGrid : bool;
  showAxes : bool
}.

Definition initial_toggles : toggles := mkToggles false false true.

(** [clear], as defined by the rendering that saw [t]. *)
Definition clear (canvasRef : option canvas) (t : toggles)
  : list canvas_op + error :=
  match getCanvas canvasRef with
  | inr e => inr e
  | inl c =>
      inl (clearRect Num.zero Num.zero (Num.of_Z (width c)) (Num.of_Z (height c))
             :: (if showGrid t then [grid] else [])
             ++ (if showAxes t then drawAxes c else []))
  end.

(** The handlers of the toggles [Show axes] and [Show grid]:
    [setShowAxes((prev) => !prev); clear();].  The update takes effect at
    the next rendering; the [clear] that is called is the one of the
    rendering that built the handler, and reads the values of that
    rendering.  The result is the state for the next rendering and what
    the call of [clear] does. *)
Definition onToggleAxes (canvasRef : option canvas) (t : toggles)
  : toggles * (list canvas_op + error) :=
  (mkToggles (eLogData t) (showGrid t) (negb (showAxes t)), clear canvasRef t).

Definition onToggleGrid (canvasRef : option canvas) (t : toggles)
  : toggles * (list canvas_op + error) :=
  (mkToggles (eLogData t) (negb (showGrid t)) (showAxes t), clear canvasRef t).

(** * More notions used in the statements *)

(** The value of the last assignment to key [k] among [ws], if any. *)
Definition last_write (k : Obj.key) (ws : list (Obj.key * element))
  : option element :=
  fold_left (fun acc w => if decide (fst w = k) then Some (snd w) else acc)
            ws None.

(** [k] may be listed before [k']: an array index before a key that is
    not one or that is an index at least as large, and a key that is not an
    index only before keys that are not. *)
Definition listed_before (k k' : Obj.key) : Prop :=
  match Obj.array_index k, Obj.array_index k' with
  | Some n, Some n' => n <= n'
  | Some _, None => True
  | None, Some _ => False
  | None, None => True
  end.

(** The frame that the tick of index [i] leaves in place of [f]. *)
Definition sampled (env : nat -> tick_env) (i : nat) (f : Frame.t) : Frame.t :=
  Frame.mk (currentTime (env i))
           (getByteTimeDomainData (timeDomain (env i)) (Frame.data f)).

(** The test that lets the first loop of [clearData] use a frame. *)
Definition not_skipped (f : Frame.t) : bool :=
  negb (Num.lt (Frame.timeStart f) Num.zero).

Definition is_scheduled (o : tick_outcome) : bool :=
  match o with
  | Scheduled _ _ => true
  | _ => false
  end.

Definition is_stroke (op : canvas_op) : bool :=
  match op with
  | stroke _ => true
  | _ => false
  end.

Definition is_grid (op : canvas_op) : bool :=
  match op with
  | grid => true
  | _ => false
  end.

Definition is_lineTo (p : path_op) : bool :=
  match p with
  | lineTo _ _ => true
  | moveTo _ _ => false
  end.

(** * Properties *)

(** ** Numbers *)

Lemma zero_eq : Num.zero = S754_zero false.
Proof. reflexivity. Qed.

Lemma nan_not_ge (x y : number) : is_nan x = true -> Num.ge x y = false.
Proof.
  destruct x; try discriminate. intros _.
  unfold Num.ge, SFleb. now destruct y.
Qed.

Lemma add_nan (x y : number) : is_nan x = true -> is_nan (Num.add x y) = true.
Proof. destruct x; try discriminate. reflexivity. Qed.

Lemma is_nan_ToPropertyKey (x : number) :
  is_nan (Obj.ToPropertyKey x) = is_nan x.
Proof. now destruct x. Qed.

(** The test [timeStart < 0] of the source against [timeStart >= 0]: a
    number that fails the first passes the second, unless it is NaN. *)
Lemma not_lt_zero (x : number) :
  Num.lt x Num.zero = false -> Num.ge x Num.zero = true \/ x = Num.nan.
Proof.
  rewrite zero_eq. unfold Num.lt, Num.ge, SFltb, SFleb.
  destruct x as [s|s| |s m e]; simpl; auto; destruct s; simpl; auto; discriminate.
Qed.

Lemma lt_zero_not_ge (x : number) :
  Num.lt x Num.zero = true -> Num.ge x Num.zero = false.
Proof.
  rewrite zero_eq. unfold Num.lt, Num.ge, SFltb, SFleb.
  destruct x as [s|s| |s m e]; simpl; auto; destruct s; simpl; auto; discriminate.
Qed.

(** ** Objects: what an assignment does to the list of keys *)

(** Assigned in the order 2.5, 1, 0.5, 0, 1, the properties are listed as
    0, 1, 2.5, 0.5, and the second assignment to 1 changes only the value. *)
Example entries_order :
  Obj.entries
    (Obj.set (Num.of_Z 1) 5%nat
       (Obj.set (Num.of_Z 0) 4%nat
          (Obj.set (Num.dyadic 1 (-1)) 3%nat
             (Obj.set (Num.of_Z 1) 2%nat
                (Obj.set (Num.dyadic 5 (-1)) 1%nat Obj.empty)))))
  = [(Num.of_Z 0, 4%nat); (Num.of_Z 1, 5%nat);
     (Num.dyadic 5 (-1), 1%nat); (Num.dyadic 1 (-1), 3%nat)].
Proof. vm_compute. reflexivity. Qed.

Section ObjFacts.
Context {V : Type}.
Implicit Types (o : Obj.t V) (k : Obj.key) (v : V).

Lemma keys_overwrite k v o : Obj.keys (Obj.overwrite k v o) = Obj.keys o.
Proof.
  induction o as [|[k' v'] o IH]; simpl; [reflexivity|].
  destruct (decide (k' = k)) as [->|]; simpl; [reflexivity|].
  f_equal. exact IH.
Qed.

Lemma keys_insert_index n k v o :
  exists l1 l2, Obj.keys o = l1 ++ l2
                /\ Obj.keys (Obj.insert_index n k v o) = l1 ++ k :: l2.
Proof.
  induction o as [|[k' v'] o IH]; simpl.
  - exists [], []. split; reflexivity.
  - destruct (Obj.array_index k') as [n'|].
    + destruct (n' <? n).
      * destruct IH as (l1 & l2 & E1 & E2).
        exists (k' :: l1), l2. simpl. rewrite E1. split; [reflexivity|].
        f_equal. exact E2.
      * exists [], (k' :: Obj.keys o). split; reflexivity.
    + exists [], (k' :: Obj.keys o). split; reflexivity.
Qed.

(** Either the key was there and the keys are unchanged, or it is new and
    appears once, somewhere among the old keys, which keep their order. *)
Lemma keys_set k v o :
  Obj.keys (Obj.set k v o) = Obj.keys o
  \/ exists l1 l2, Obj.keys o = l1 ++ l2
                   /\ Obj.keys (Obj.set k v o) = l1 ++ k :: l2.
Proof.
  unfold Obj.set. destruct (Obj.has k o).
  - left. apply keys_overwrite.
  - right. destruct (Obj.array_index k) as [n|].
    + apply keys_insert_index.
    + exists (Obj.keys o), []. split.
      * symmetry. apply app_nil_r.
      * unfold Obj.keys. rewrite map_app. reflexivity.
Qed.

Lemma keys_set_sublist k v o :
  Obj.keys o `sublist_of` Obj.keys (Obj.set k v o).
Proof.
  destruct (keys_set k v o) as [->|(l1 & l2 & -> & ->)]; [reflexivity|].
  apply sublist_app; [reflexivity|]. apply sublist_cons. reflexivity.
Qed.

End ObjFacts.

Lemma count_if_app P l1 l2 :
  count_if P (l1 ++ l2) = (count_if P l1 + count_if P l2)%nat.
Proof. induction l1 as [|k l1 IH]; simpl; [reflexivity|]. rewrite IH. lia. Qed.

Lemma count_if_set {V} P (k : Obj.key) (v : V) (o : Obj.t V) :
  (count_if P (Obj.keys (Obj.set k v o))
   <= count_if P (Obj.keys o) + if P k then 1 else 0)%nat.
Proof.
  destruct (keys_set k v o) as [->|(l1 & l2 & -> & ->)]; [lia|].
  rewrite !count_if_app. simpl. lia.
Qed.

(** ** The first loop of [clearData]: the assignments it performs *)

Lemma fill_frame_writes inc samples n : forall j time M,
  fill_frame inc samples j n time M
  = fold_left perform (frame_writes inc samples j n time) M.
Proof.
  induction n as [|n IH]; intros j time M; simpl; [reflexivity|].
  apply IH.
Qed.

Lemma fold_fill_step_writes inc bl frames : forall M,
  fold_left (fill_step inc bl) frames M
  = fold_left perform (concat (map (step_writes inc bl) frames)) M.
Proof.
  induction frames as [|f frames IH]; intros M; simpl; [reflexivity|].
  rewrite fold_left_app, IH. f_equal.
  unfold fill_step, step_writes.
  destruct (Num.lt (Frame.timeStart f) Num.zero); [reflexivity|].
  apply fill_frame_writes.
Qed.

Lemma build_dataMap_writes dataSink :
  build_dataMap dataSink = fold_left perform (writes dataSink) Obj.empty.
Proof. apply fold_fill_step_writes. Qed.

Lemma accumulated_time_succ_r inc t j :
  accumulated_time inc (Num.add t inc) j = accumulated_time inc t (S j).
Proof. unfold accumulated_time. rewrite Nat.iter_succ_r. reflexivity. Qed.

Lemma frame_writes_lookup inc samples n : forall j0 time j,
  (j < n)%nat ->
  frame_writes inc samples j0 n time !! j
  = Some (Obj.ToPropertyKey (accumulated_time inc time j),
          samples !! (j0 + j)%nat).
Proof.
  induction n as [|n IH]; intros j0 time j Hj; [lia|].
  destruct j as [|j].
  - simpl. rewrite Nat.add_0_r. reflexivity.
  - change (frame_writes inc samples j0 (S n) time !! S j)
      with (frame_writes inc samples (S j0) n (Num.add time inc) !! j).
    rewrite IH by lia. rewrite accumulated_time_succ_r.
    replace (S j0 + j)%nat with (j0 + S j)%nat by lia. reflexivity.
Qed.

Lemma fill_frame_keys_sublist inc samples n : forall j time M,
  Obj.keys M `sublist_of` Obj.keys (fill_frame inc samples j n time M).
Proof.
  induction n as [|n IH]; intros j time M; simpl; [reflexivity|].
  etransitivity; [|apply IH]. apply keys_set_sublist.
Qed.

Lemma fill_frame_count inc samples n : forall j time M,
  (count_if not_nan (Obj.keys (fill_frame inc samples j n time M))
   <= count_if not_nan (Obj.keys M) + if is_nan time then 0 else n)%nat.
Proof.
  induction n as [|n IH]; intros j time M; simpl.
  - destruct (is_nan time); lia.
  - specialize (IH (S j) (Num.add time inc)
                   (Obj.set (Obj.ToPropertyKey time) (samples !! j) M)).
    pose proof (count_if_set not_nan (Obj.ToPropertyKey time) (samples !! j) M) as Hs.
    unfold not_nan at 3 in Hs. rewrite is_nan_ToPropertyKey in Hs.
    destruct (is_nan time) eqn:Ht.
    + rewrite (add_nan time inc Ht) in IH. cbv iota in IH. simpl in Hs. lia.
    + simpl in Hs. destruct (is_nan (Num.add time inc)); lia.
Qed.

Lemma fill_step_count inc bl f M :
  (count_if not_nan (Obj.keys (fill_step inc bl M f))
   <= count_if not_nan (Obj.keys M) + if populated f then bl else 0)%nat.
Proof.
  unfold fill_step.
  destruct (Num.lt (Frame.timeStart f) Num.zero) eqn:Hlt; [lia|].
  pose proof (fill_frame_count inc (Frame.data f) bl 0 (Frame.timeStart f) M) as H.
  destruct (not_lt_zero _ Hlt) as [Hge|Hnan].
  - unfold populated. rewrite Hge. destruct (is_nan (Frame.timeStart f)); lia.
  - rewrite Hnan in H |- *. simpl in H. lia.
Qed.

Lemma fold_fill_step_count inc bl frames : forall M,
  (count_if not_nan (Obj.keys (fold_left (fill_step inc bl) frames M))
   <= count_if not_nan (Obj.keys M) + populated_count frames * bl)%nat.
Proof.
  unfold populated_count.
  induction frames as [|f frames IH]; intros M; simpl; [lia|].
  specialize (IH (fill_step inc bl M f)).
  pose proof (fill_step_count inc bl f M) as Hf.
  destruct (populated f); simpl; lia.
Qed.

(** Frames that fail the test of the outer loop leave the map alone. *)
Lemma fold_fill_step_skipped inc bl frames : forall M,
  Forall (fun f => Num.lt (Frame.timeStart f) Num.zero = true) frames ->
  fold_left (fill_step inc bl) frames M = M.
Proof.
  induction frames as [|f frames IH]; intros M Hall; simpl; [reflexivity|].
  inversion Hall as [|? ? Hf Hrest]; subst.
  unfold fill_step at 2. rewrite Hf. apply IH. exact Hrest.
Qed.

(** ** The second loop of [clearData] *)

Lemma thin_length epsilon entries : forall w,
  length (outputData (fold_left (thin_step epsilon) entries w))
  = (length (outputData w)
     + accepted epsilon (map fst entries) (w_start w, w_end w))%nat.
Proof.
  induction entries as [|[k v] entries IH]; intros w; simpl; [lia|].
  rewrite IH. unfold thin_step, accepts, within. simpl.
  destruct (Num.ge (Obj.parseFloat k) (w_start w) && Num.le (Obj.parseFloat k) (w_end w));
    simpl; [|reflexivity].
  rewrite length_app. unfold shift. simpl. lia.
Qed.

Lemma accepted_le_not_nan epsilon ks : forall b,
  (accepted epsilon ks b <= count_if not_nan ks)%nat.
Proof.
  induction ks as [|k ks IH]; intros b; simpl; [lia|].
  unfold within, Obj.parseFloat. unfold not_nan at 1.
  destruct (is_nan k) eqn:Hk.
  - rewrite (nan_not_ge k _ Hk). simpl. apply IH.
  - simpl. destruct (Num.ge k (fst b) && Num.le k (snd b)).
    + specialize (IH (shift epsilon b)). lia.
    + specialize (IH b). lia.
Qed.

(** More keys never mean fewer acceptances: if [l1] is [l2] with some keys
    removed, and the bounds used on [l2] are [d] shifts ahead of those used
    on [l1], then [l1] gains at most [d] on [l2]. *)
Lemma accepted_sublist epsilon l1 l2 :
  l1 `sublist_of` l2 ->
  forall d b,
    (accepted epsilon l1 b
     <= d + accepted epsilon l2 (Nat.iter d (shift epsilon) b))%nat.
Proof.
  induction 1 as [|k l1 l2 _ IH|k l1 l2 _ IH]; intros d b; simpl; [lia| |].
  - destruct (within (Nat.iter d (shift epsilon) b) (Obj.parseFloat k)) eqn:H2;
      destruct (within b (Obj.parseFloat k)) eqn:H1.
    + specialize (IH d (shift epsilon b)).
      rewrite <- Nat.iter_succ_r in IH. simpl in IH. lia.
    + specialize (IH (S d) b). simpl in IH. lia.
    + destruct d as [|d]; [simpl in H2; congruence|].
      specialize (IH d (shift epsilon b)).
      rewrite <- Nat.iter_succ_r in IH. lia.
    + apply IH.
  - destruct (within (Nat.iter d (shift epsilon) b) (Obj.parseFloat k)).
    + specialize (IH (S d) b). simpl in IH. lia.
    + apply IH.
Qed.

(** ** Allocation *)

Lemma push_frames_repeat W n : forall acc,
  push_frames W n acc = acc ++ repeat (fresh_frame W) n.
Proof.
  induction n as [|n IH]; intros acc; simpl.
  - symmetry. apply app_nil_r.
  - rewrite IH, <- app_assoc. reflexivity.
Qed.

Lemma fresh_frame_unpopulated W :
  Num.lt (Frame.timeStart (fresh_frame W)) Num.zero = true.
Proof. reflexivity. Qed.

Lemma fresh_frames_spec W n :
  Forall (fun f => Frame.timeStart f = Num.of_Z (-1)
                   /\ length (Frame.data f) = W
                   /\ Forall (fun b => b = 0) (Frame.data f))
         (repeat (fresh_frame W) n).
Proof.
  apply Forall_forall. intros f Hf.
  apply list_elem_of_In, repeat_spec in Hf. subst f. simpl.
  split; [reflexivity|]. unfold Uint8Array.
  split; [apply repeat_length|].
  apply Forall_forall. intros b Hb.
  apply list_elem_of_In, repeat_spec in Hb. exact Hb.
Qed.

Lemma createDataSink_length rate W C :
  length (rawData (createDataSink rate W C)) = C
  /\ maxBufferIndex (createDataSink rate W C) = C.
Proof.
  simpl. rewrite push_frames_repeat. simpl.
  split; [apply repeat_length|reflexivity].
Qed.

(** C8: for every sample rate, frame width [W] and capacity [C], the sink
    built by the allocation loop has exactly [C] frames, each with
    [timeStart = -1] and [W] samples that are all zero; the other fields are
    the given rate, [W], [C] and an empty [data]. *)
Theorem createDataSink_frames (rate : number) (W C : nat) :
  let ds := createDataSink rate W C in
  length (rawData ds) = C
  /\ Forall (fun f => Frame.timeStart f = Num.of_Z (-1)
                      /\ length (Frame.data f) = W
                      /\ Forall (fun b => b = 0) (Frame.data f))
            (rawData ds)
  /\ sampleRate ds = rate /\ bufferLength ds = W /\ maxBufferIndex ds = C
  /\ data ds = [].
Proof.
  split; [apply (createDataSink_length rate W C)|].
  split; [|repeat split].
  simpl. rewrite push_frames_repeat. apply fresh_frames_spec.
Qed.

(** The sink the program itself builds: 100 frames of 1024 samples. *)
Lemma createAnalyserWithDataSink_frames (rate : number) :
  let ds := createAnalyserWithDataSink rate in
  length (rawData ds) = 100%nat
  /\ Forall (fun f => Frame.timeStart f = Num.of_Z (-1)
                      /\ length (Frame.data f) = 1024%nat)
            (rawData ds).
Proof.
  split; [apply (createDataSink_length rate frequencyBinCount 100)|].
  change (rawData (createAnalyserWithDataSink rate))
    with (push_frames frequencyBinCount 100 []).
  rewrite push_frames_repeat, app_nil_l.
  eapply Forall_impl; [apply fresh_frames_spec|].
  intros f (Ht & Hw & _). split; [exact Ht|exact Hw].
Qed.

(** ** The reconciler *)

Lemma clearData_no_frames (dataSink : DataSink) :
  rawData dataSink = [] -> clearData dataSink = Threw TypeError dataSink.
Proof. intros H. unfold clearData. rewrite H. reflexivity. Qed.

Lemma clearData_Normal (dataSink : DataSink) (f0 : Frame.t) :
  rawData dataSink !! 0%nat = Some f0 ->
  clearData dataSink
  = Normal (with_data dataSink
              (outputData
                 (fold_left (thin_step (epsilon_of dataSink))
                            (Obj.entries (build_dataMap dataSink))
                            (initial_window (epsilon_of dataSink) f0)))).
Proof. intros H. unfold clearData. rewrite H. reflexivity. Qed.

(** C10: whatever the sink, and however the call ends, [clearData] leaves
    [sampleRate], [bufferLength], [maxBufferIndex] and every frame of
    [rawData] as they were; only [data] can differ. *)
Theorem clearData_frame (dataSink : DataSink) :
  let after := sink_after (clearData dataSink) in
  sampleRate after = sampleRate dataSink
  /\ bufferLength after = bufferLength dataSink
  /\ maxBufferIndex after = maxBufferIndex dataSink
  /\ rawData after = rawData dataSink.
Proof.
  unfold clearData. destruct (rawData dataSink !! 0%nat); simpl; auto.
Qed.

(** C3: when [rawData[0]] exists and every frame, [rawData[0]] included,
    still has [timeStart < 0], [clearData] ends normally and sets [data] to
    the empty array. *)
Theorem clearData_unpopulated (dataSink : DataSink) (f0 : Frame.t) :
  rawData dataSink !! 0%nat = Some f0 ->
  Forall (fun f => Num.lt (Frame.timeStart f) Num.zero = true)
         (rawData dataSink) ->
  clearData dataSink = Normal (with_data dataSink []).
Proof.
  intros H0 Hall. rewrite (clearData_Normal _ f0 H0).
  unfold build_dataMap. rewrite fold_fill_step_skipped by exact Hall.
  reflexivity.
Qed.

Lemma clearData_unpopulated_witness :
  let ds := createDataSink (Num.of_Z 4) 2 3 in
  rawData ds !! 0%nat = Some (fresh_frame 2)
  /\ clearData ds = Normal (with_data ds []).
Proof.
  split; [reflexivity|].
  apply (clearData_unpopulated (createDataSink (Num.of_Z 4) 2 3) (fresh_frame 2)).
  - reflexivity.
  - repeat constructor.
Defined.

(** C5: when [clearData] ends normally, the [data] it leaves has at most
    (number of frames with [timeStart >= 0]) * [bufferLength] elements; and it
    ends otherwise only for a sink without any frame. *)
Theorem clearData_length_bound (dataSink : DataSink) :
  match clearData dataSink with
  | Normal after =>
      (length (data after)
       <= populated_count (rawData dataSink) * bufferLength dataSink)%nat
  | Threw _ _ => rawData dataSink = []
  end.
Proof.
  unfold clearData. destruct (rawData dataSink !! 0%nat) as [f0|] eqn:H0.
  - simpl. rewrite thin_length. simpl.
    etransitivity; [apply accepted_le_not_nan|].
    apply (fold_fill_step_count _ _ _ Obj.empty).
  - destruct (rawData dataSink); [reflexivity|discriminate].
Qed.

(** C4: take a sink whose frames are [pre ++ f :: post] with the frames of
    [pre] populated and [f] and the frames of [post] not, and the same sink
    with [f] replaced by a populated frame [f'].  [clearData] ends normally
    on both, and the output for the second is at least as long as the output
    for the first. *)
Theorem clearData_length_monotone (dataSink : DataSink)
    (pre post : list Frame.t) (f f' : Frame.t) :
  rawData dataSink = pre ++ f :: post ->
  Forall (fun g => populated g = true) pre ->
  Num.lt (Frame.timeStart f) Num.zero = true ->
  Forall (fun g => Num.lt (Frame.timeStart g) Num.zero = true) post ->
  populated f' = true ->
  let dataSink' := with_rawData dataSink (pre ++ f' :: post) in
  exists out out',
    clearData dataSink = Normal (with_data dataSink out)
    /\ clearData dataSink' = Normal (with_data dataSink' out')
    /\ (length out <= length out')%nat.
Proof.
  intros Hr _ Hf Hpost _ dataSink'.
  set (inc := Num.div Num.one (sampleRate dataSink)).
  set (bl := bufferLength dataSink).
  set (M := fold_left (fill_step inc bl) pre Obj.empty).
  assert (HM : build_dataMap dataSink = M).
  { unfold build_dataMap. rewrite Hr, fold_left_app. simpl.
    rewrite fold_fill_step_skipped by exact Hpost.
    unfold fill_step at 1. fold inc bl. rewrite Hf. reflexivity. }
  assert (HM' : build_dataMap dataSink' = fill_step inc bl M f').
  { unfold build_dataMap, dataSink'. simpl. rewrite fold_left_app. simpl.
    apply fold_fill_step_skipped. exact Hpost. }
  assert (Hsub : Obj.keys M `sublist_of` Obj.keys (fill_step inc bl M f')).
  { unfold fill_step. destruct (Num.lt (Frame.timeStart f') Num.zero);
      [reflexivity|apply fill_frame_keys_sublist]. }
  assert (Heps : epsilon_of dataSink' = epsilon_of dataSink) by reflexivity.
  destruct pre as [|p pre].
  - exists [], (outputData
                  (fold_left (thin_step (epsilon_of dataSink'))
                     (Obj.entries (build_dataMap dataSink'))
                     (initial_window (epsilon_of dataSink') f'))).
    split; [|split].
    + rewrite (clearData_Normal _ f) by (rewrite Hr; reflexivity).
      rewrite HM. reflexivity.
    + apply clearData_Normal. reflexivity.
    + simpl. lia.
  - eexists _, _. split; [|split].
    + apply (clearData_Normal _ p). rewrite Hr. reflexivity.
    + apply (clearData_Normal _ p). reflexivity.
    + rewrite !thin_length, Heps, HM, HM'. simpl.
      apply (accepted_sublist _ _ _ Hsub 0).
Qed.

Lemma clearData_length_monotone_witness :
  let pre := [Frame.mk (Num.dyadic 7 (-3)) [1; 2; 3]] in
  let post := [fresh_frame 3] in
  let f := fresh_frame 3 in
  let f' := Frame.mk (Num.of_Z 1) [4; 5; 6] in
  let ds := mkDataSink (Num.of_Z 4) 3 3 (pre ++ f :: post) [] in
  let ds' := with_rawData ds (pre ++ f' :: post) in
  exists out out',
    clearData ds = Normal (with_data ds out)
    /\ clearData ds' = Normal (with_data ds' out')
    /\ (length out <= length out')%nat.
Proof.
  apply (clearData_length_monotone
           (mkDataSink (Num.of_Z 4) 3 3
              ([Frame.mk (Num.dyadic 7 (-3)) [1; 2; 3]]
                 ++ fresh_frame 3 :: [fresh_frame 3]) [])
           [Frame.mk (Num.dyadic 7 (-3)) [1; 2; 3]]
           [fresh_frame 3] (fresh_frame 3) (Frame.mk (Num.of_Z 1) [4; 5; 6])).
  - reflexivity.
  - repeat constructor.
  - reflexivity.
  - repeat constructor.
  - reflexivity.
Defined.

(** ** The scenario of the specification *)

(** C1: on the scenario, the sample period is 0.25; the map holds exactly
    the six pairs 0:10, 0.25:20, 0.5:30, 0.75:40, 1:50, 1.25:60 (listed by
    [Object.entries] with the integer keys 0 and 1 first); the window starts
    as [-0.25, 0.25]; the first entry, key 0, is accepted and gives output
    [10] and window [0.25, 0.75]; key 1 is then passed over and key 0.25 is
    the next one accepted, giving [10, 20]; and [clearData] ends with
    [data = [10, 20, 40, 60]]. *)
Theorem scenario_reconciled :
  epsilon_of scenario = quarter 1
  /\ Permutation scenario_entries
       [(quarter 0, Some 10); (quarter 1, Some 20); (quarter 2, Some 30);
        (quarter 3, Some 40); (quarter 4, Some 50); (quarter 5, Some 60)]
  /\ scenario_entries
     = [(quarter 0, Some 10); (quarter 4, Some 50); (quarter 1, Some 20);
        (quarter 2, Some 30); (quarter 3, Some 40); (quarter 5, Some 60)]
  /\ scenario_window = mkWindow (quarter (-1)) (quarter 1) []
  /\ fold_left (thin_step (epsilon_of scenario)) (firstn 1 scenario_entries)
               scenario_window
     = mkWindow (quarter 1) (quarter 3) [Some 10]
  /\ fold_left (thin_step (epsilon_of scenario)) (firstn 2 scenario_entries)
               scenario_window
     = mkWindow (quarter 1) (quarter 3) [Some 10]
  /\ fold_left (thin_step (epsilon_of scenario)) (firstn 3 scenario_entries)
               scenario_window
     = mkWindow (quarter 3) (quarter 5) [Some 10; Some 20]
  /\ clearData scenario
     = Normal (with_data scenario [Some 10; Some 20; Some 40; Some 60]).
Proof.
  assert (He : scenario_entries
     = [(quarter 0, Some 10); (quarter 4, Some 50); (quarter 1, Some 20);
        (quarter 2, Some 30); (quarter 3, Some 40); (quarter 5, Some 60)])
    by (vm_compute; reflexivity).
  split; [vm_compute; reflexivity|].
  split.
  { rewrite He. apply perm_skip.
    change ((quarter 4, Some 50) :: ?l) with ([(quarter 4, Some 50)] ++ l).
    rewrite (Permutation_app_comm [(quarter 4, Some 50)]). simpl.
    do 3 apply perm_skip. apply perm_swap. }
  split; [exact He|].
  repeat split; vm_compute; reflexivity.
Qed.

(** ** The keys of the map *)

Lemma populated_not_skipped (f : Frame.t) :
  populated f = true -> Num.lt (Frame.timeStart f) Num.zero = false.
Proof.
  unfold populated. intros Hp.
  destruct (Num.lt (Frame.timeStart f) Num.zero) eqn:Hlt; [|reflexivity].
  rewrite (lt_zero_not_ge _ Hlt) in Hp. discriminate.
Qed.

(** C6, as stated, fails on [tenth_sink]: for sample 10 of its frame the
    formula gives the time 1, and the map has no key 1; ten additions of
    1/10 end at [1 - 2^-53] (which prints as 0.9999999999999999), and the
    sample is found under that key.  It fails in the same way at an audio
    rate: on [audio_rate_sink] the formula gives sample 5 a time that is
    not a key of the map. *)
Lemma tenth_sink_key :
  let f := Frame.mk Num.zero [0; 1; 2; 3; 4; 5; 6; 7; 8; 9; 10] in
  let inc := Num.div Num.one (sampleRate tenth_sink) in
  rawData tenth_sink !! 0%nat = Some f
  /\ populated f = true
  /\ Frame.data f !! 10%nat = Some 10
  /\ spec_sample_time (sampleRate tenth_sink) (Frame.timeStart f) 10 = Num.of_Z 1
  /\ Obj.get (Obj.ToPropertyKey (Num.of_Z 1)) (build_dataMap tenth_sink) = None
  /\ accumulated_time inc (Frame.timeStart f) 10
     = S754_finite false 9007199254740991 (-53)
  /\ Obj.get (Obj.ToPropertyKey (accumulated_time inc (Frame.timeStart f) 10))
             (build_dataMap tenth_sink)
     = Some (Some 10)
  /\ Obj.get (Obj.ToPropertyKey
                (spec_sample_time (sampleRate audio_rate_sink) Num.zero 5))
             (build_dataMap audio_rate_sink)
     = None.
Proof. repeat split; vm_compute; reflexivity. Qed.

(** C6, amended: the map is the result of performing the assignments
    [writes] in order, and for every populated frame [f] and every
    [j < bufferLength] these contain the assignment of [f.data[j]] to the
    key of the number reached from [f.timeStart] by [j] rounded additions of
    [1 / sampleRate]. *)
Theorem build_dataMap_key (dataSink : DataSink) (i j : nat) (f : Frame.t) :
  rawData dataSink !! i = Some f ->
  populated f = true ->
  (j < bufferLength dataSink)%nat ->
  let frameTimeInc := Num.div Num.one (sampleRate dataSink) in
  build_dataMap dataSink = fold_left perform (writes dataSink) Obj.empty
  /\ In (Obj.ToPropertyKey (accumulated_time frameTimeInc (Frame.timeStart f) j),
         Frame.data f !! j)
        (writes dataSink).
Proof.
  intros Hi Hp Hj frameTimeInc.
  split; [apply build_dataMap_writes|].
  unfold writes. fold frameTimeInc.
  apply in_concat.
  exists (step_writes frameTimeInc (bufferLength dataSink) f). split.
  - apply in_map, list_elem_of_In. eapply list_elem_of_lookup_2. exact Hi.
  - unfold step_writes. rewrite (populated_not_skipped f Hp).
    apply list_elem_of_In. eapply list_elem_of_lookup_2.
    apply (frame_writes_lookup _ _ _ 0). exact Hj.
Qed.

Lemma build_dataMap_key_witness :
  let f := Frame.mk Num.zero [0; 1; 2; 3; 4; 5; 6; 7; 8; 9; 10] in
  let frameTimeInc := Num.div Num.one (sampleRate tenth_sink) in
  build_dataMap tenth_sink = fold_left perform (writes tenth_sink) Obj.empty
  /\ In (Obj.ToPropertyKey (accumulated_time frameTimeInc (Frame.timeStart f) 10),
         Frame.data f !! 10%nat)
        (writes tenth_sink).
Proof.
  apply (build_dataMap_key tenth_sink 0 10
           (Frame.mk Num.zero [0; 1; 2; 3; 4; 5; 6; 7; 8; 9; 10])).
  - reflexivity.
  - reflexivity.
  - simpl. lia.
Defined.

(** ** The sampling loop *)

Lemma lt_not_ge (x y : number) : Num.lt x y = true -> Num.ge x y = false.
Proof.
  unfold Num.lt, Num.ge, SFltb, SFleb.
  destruct x as [sx|sx| |sx mx ex], y as [sy|sy| |sy my ey]; simpl;
    try discriminate; try reflexivity;
    try (destruct sx; simpl; try discriminate; reflexivity);
    try (destruct sy; simpl; try discriminate; reflexivity);
    try (destruct sx, sy; simpl; try discriminate; reflexivity).
  destruct sx, sy; simpl; try discriminate; try reflexivity;
    rewrite (Z.compare_antisym ex ey);
    change (Pos.compare_cont Eq my mx) with (Pos.compare my mx);
    change (Pos.compare_cont Eq mx my) with (Pos.compare mx my);
    rewrite (Pos.compare_antisym mx my);
    destruct (Z.compare ex ey); simpl; try discriminate; try reflexivity;
    destruct (Pos.compare mx my); simpl; try discriminate; reflexivity.
Qed.

(** The stopping branch: nothing is scheduled and no frame is written. *)
Lemma gatherData_stop env dataSink endTime currentIndex :
  stop_test env dataSink endTime currentIndex = true ->
  gatherData env dataSink endTime currentIndex
  = match clearData dataSink with
    | Threw e ds' => Failed e ds'
    | Normal ds' =>
        match the_canvas env with
        | None => Failed CanvasError ds'
        | Some c => Stopped ds' (drawData c ds')
        end
    end
  /\ rawData (tick_sink (gatherData env dataSink endTime currentIndex))
     = rawData dataSink.
Proof.
  intros Hs. unfold gatherData. rewrite Hs. split; [reflexivity|].
  unfold clearData. destruct (rawData dataSink !! 0%nat); simpl;
    [destruct (the_canvas env)|]; reflexivity.
Qed.

(** The sampling branch on a frame that exists. *)
Lemma gatherData_in_range env dataSink endTime currentIndex f :
  stop_test env dataSink endTime currentIndex = false ->
  rawData dataSink !! currentIndex = Some f ->
  let f' := Frame.mk (currentTime env)
              (getByteTimeDomainData (timeDomain env) (Frame.data f)) in
  gatherData env dataSink endTime currentIndex
  = Scheduled (with_rawData dataSink (<[currentIndex := f']> (rawData dataSink)))
              (S currentIndex)
  /\ <[currentIndex := f']> (rawData dataSink) !! currentIndex = Some f'.
Proof.
  intros Hs Hf f'. unfold gatherData. rewrite Hs, Hf. split; [reflexivity|].
  apply list_lookup_insert_eq. eapply lookup_lt_Some. exact Hf.
Qed.

(** An array no longer than the analyser's data is filled with the first
    bytes of that data. *)
Lemma getByteTimeDomainData_fits (bytes arr : list Z) :
  (length arr <= length bytes)%nat ->
  getByteTimeDomainData bytes arr = firstn (length arr) bytes.
Proof.
  intros H. unfold getByteTimeDomainData.
  rewrite skipn_all2 by exact H. apply app_nil_r.
Qed.

(** Before the deadline the test fires only for an index above
    [maxBufferIndex]. *)
Lemma stop_test_before_deadline env dataSink endTime currentIndex :
  Num.lt (currentTime env) endTime = true ->
  (currentIndex <= maxBufferIndex dataSink)%nat ->
  stop_test env dataSink endTime currentIndex = false.
Proof.
  intros Hlt Hle. unfold stop_test. rewrite (lt_not_ge _ _ Hlt). simpl.
  apply Nat.ltb_ge. exact Hle.
Qed.

(** The sampling branch on an index past the last frame:
    [rawData[currentIndex]] is [undefined] and setting its [timeStart]
    throws. *)
Lemma tick_past_frames env dataSink endTime currentIndex :
  stop_test env dataSink endTime currentIndex = false ->
  (length (rawData dataSink) <= currentIndex)%nat ->
  rawData dataSink !! currentIndex = None
  /\ gatherData env dataSink endTime currentIndex = Failed TypeError dataSink.
Proof.
  intros Hs Hlen.
  assert (Hn : rawData dataSink !! currentIndex = None)
    by (apply lookup_ge_None; exact Hlen).
  split; [exact Hn|]. unfold gatherData. rewrite Hs, Hn. reflexivity.
Qed.

(** C2, as stated, fails: on a sink of capacity 3 whose clock reads 0
    before the deadline 1, the tick with index 3 ends by a [TypeError] and
    leaves the sink as it was, without an element 3 in [rawData]. *)
Lemma tick_at_capacity_writes_nothing :
  let ds := createDataSink (Num.of_Z 4) 2 3 in
  let env := mkEnv Num.zero [128; 129; 130; 131] (Some (mkCanvas 1000 1000)) in
  length (rawData ds) = 3%nat
  /\ maxBufferIndex ds = 3%nat
  /\ Num.lt (currentTime env) Num.one = true
  /\ gatherData env ds Num.one 3 = Failed TypeError ds
  /\ rawData (tick_sink (gatherData env ds Num.one 3)) !! 3%nat = None.
Proof. repeat split; vm_compute; reflexivity. Qed.

(** C2, amended: when [rawData] has [maxBufferIndex] frames and the clock
    is before the deadline, the tick with index [maxBufferIndex] passes the
    test [currentIndex > maxBufferIndex], finds no frame at that index and
    ends by a [TypeError] with the sink unchanged. *)
Theorem gatherData_at_capacity env dataSink endTime :
  length (rawData dataSink) = maxBufferIndex dataSink ->
  Num.lt (currentTime env) endTime = true ->
  stop_test env dataSink endTime (maxBufferIndex dataSink) = false
  /\ rawData dataSink !! maxBufferIndex dataSink = None
  /\ gatherData env dataSink endTime (maxBufferIndex dataSink)
     = Failed TypeError dataSink.
Proof.
  intros Hlen Hlt.
  pose proof (stop_test_before_deadline env dataSink endTime
                (maxBufferIndex dataSink) Hlt (Nat.le_refl _)) as Hs.
  split; [exact Hs|]. apply tick_past_frames; [exact Hs|lia].
Qed.

Lemma gatherData_at_capacity_witness :
  let ds := createDataSink (Num.of_Z 4) 2 3 in
  let env := mkEnv Num.zero [128; 129; 130; 131] None in
  stop_test env ds Num.one (maxBufferIndex ds) = false
  /\ rawData ds !! maxBufferIndex ds = None
  /\ gatherData env ds Num.one (maxBufferIndex ds) = Failed TypeError ds.
Proof.
  apply (gatherData_at_capacity
           (mkEnv Num.zero [128; 129; 130; 131] None)
           (createDataSink (Num.of_Z 4) 2 3) Num.one).
  - reflexivity.
  - reflexivity.
Defined.

(** While the clock stays before the deadline and frames remain, every tick
    schedules the next one; the frames keep their number. *)
Lemma ticks_before_deadline env endTime n : forall dataSink currentIndex,
  (forall i, Num.lt (currentTime (env i)) endTime = true) ->
  (currentIndex + n <= length (rawData dataSink))%nat ->
  (currentIndex + n <= maxBufferIndex dataSink)%nat ->
  exists ds',
    ticks n env dataSink endTime currentIndex = Scheduled ds' (currentIndex + n)
    /\ length (rawData ds') = length (rawData dataSink)
    /\ maxBufferIndex ds' = maxBufferIndex dataSink.
Proof.
  induction n as [|n IH]; intros dataSink currentIndex Hclock Hlen Hmax; simpl.
  - exists dataSink. rewrite Nat.add_0_r. auto.
  - assert (Hs : stop_test (env currentIndex) dataSink endTime currentIndex = false)
      by (apply stop_test_before_deadline; [apply Hclock|lia]).
    destruct (lookup_lt_is_Some_2 (rawData dataSink) currentIndex) as [f Hf]; [lia|].
    destruct (gatherData_in_range _ _ _ _ _ Hs Hf) as [-> _].
    edestruct (IH (with_rawData dataSink
                     (<[currentIndex :=
                          Frame.mk (currentTime (env currentIndex))
                            (getByteTimeDomainData (timeDomain (env currentIndex))
                               (Frame.data f))]> (rawData dataSink)))
                  (S currentIndex) Hclock) as (ds' & Ht & Hl & Hm).
    + simpl. rewrite length_insert. lia.
    + simpl. lia.
    + exists ds'. rewrite Ht. simpl in Hl, Hm. rewrite length_insert in Hl.
      replace (currentIndex + S n)%nat with (S currentIndex + n)%nat by lia.
      auto.
Qed.

(** C7 fails on the program's own sink: started at index 0 with a clock
    that stays before the deadline, the loop runs 100 ticks that each
    schedule the next; the tick with index 100 then neither stops nor
    samples: the test does not fire, and the tick ends by a [TypeError]
    with the sink unchanged and no further tick scheduled. *)
Theorem run_to_capacity_fails (rate : number) (env : nat -> tick_env)
    (endTime : number) :
  (forall i, Num.lt (currentTime (env i)) endTime = true) ->
  exists ds',
    ticks 100 env (createAnalyserWithDataSink rate) endTime 0 = Scheduled ds' 100
    /\ stop_test (env 100%nat) ds' endTime 100 = false
    /\ gatherData (env 100%nat) ds' endTime 100 = Failed TypeError ds'.
Proof.
  intros Hclock.
  destruct (createDataSink_length rate frequencyBinCount 100) as [Hl Hm].
  fold (createAnalyserWithDataSink rate) in Hl, Hm.
  destruct (ticks_before_deadline env endTime 100
              (createAnalyserWithDataSink rate) 0 Hclock) as (ds' & Ht & Hl' & Hm');
    [lia|lia|].
  exists ds'. split; [exact Ht|].
  rewrite Hl in Hl'. rewrite Hm in Hm'.
  assert (Hs : stop_test (env 100%nat) ds' endTime 100 = false)
    by (apply stop_test_before_deadline; [apply Hclock|lia]).
  split; [exact Hs|]. apply tick_past_frames; [exact Hs|lia].
Qed.

Lemma run_to_capacity_fails_witness :
  let endTime := Num.div (Num.of_Z 2) (Num.of_Z 10) in
  exists ds',
    ticks 100 (fun _ => stalled) (createAnalyserWithDataSink (Num.of_Z 48000))
          endTime 0
    = Scheduled ds' 100
    /\ stop_test stalled ds' endTime 100 = false
    /\ gatherData stalled ds' endTime 100 = Failed TypeError ds'.
Proof.
  apply (run_to_capacity_fails (Num.of_Z 48000) (fun _ => stalled)
           (Num.div (Num.of_Z 2) (Num.of_Z 10))).
  intros _. reflexivity.
Defined.

(** ** The polyline *)

Lemma plot_loop_length c inc samples n : forall i x,
  length (plot_loop c inc samples i n x) = n.
Proof.
  induction n as [|n IH]; intros i x; simpl; [reflexivity|].
  rewrite IH. reflexivity.
Qed.

Lemma plot_loop_lookup c inc samples n : forall i x j,
  (j < n)%nat ->
  plot_loop c inc samples i n x !! j
  = Some (lineTo (Nat.iter j (fun x => Num.add x inc) x)
                 (getY c (mjoin (samples !! (i + j)%nat)))).
Proof.
  induction n as [|n IH]; intros i x j Hj; [lia|].
  destruct j as [|j].
  - simpl. rewrite Nat.add_0_r. reflexivity.
  - change (plot_loop c inc samples i (S n) x !! S j)
      with (plot_loop c inc samples (S i) n (Num.add x inc) !! j).
    rewrite IH by lia.
    rewrite (Nat.iter_succ_r j (fun x0 => Num.add x0 inc) x).
    replace (S i + j)%nat with (i + S j)%nat by lia. reflexivity.
Qed.

(** C9, as stated, fails: on a canvas 640 wide and 256 high, the samples
    10, 20, 30 are drawn at the ordinates 10, 20, 30 and at the abscissas 0,
    40, 240, while the increment [(640 - 40) / 3] is 200: the first two
    vertices are 40 apart. *)
Lemma first_segment_spans_padding :
  let c := mkCanvas 640 256 in
  let ds := with_data (createDataSink (Num.of_Z 4) 2 3)
                      [Some 10; Some 20; Some 30] in
  xIncrement_of c ds = Num.of_Z 200
  /\ map vertex_x (drawData c ds) = [Num.of_Z 0; Num.of_Z 40; Num.of_Z 240]
  /\ map vertex_y (drawData c ds) = [Num.of_Z 10; Num.of_Z 20; Num.of_Z 30]
  /\ Num.sub (Num.of_Z 40) (Num.of_Z 0) = Num.of_Z 40.
Proof. repeat split; vm_compute; reflexivity. Qed.

(** C9, amended: for a non-empty [data] the path has one vertex for each
    sample; vertex [i] has the ordinate [data[i] * height / 256]; vertex 0 is
    at abscissa 0, and vertex [i >= 1] at the abscissa reached from the
    padding 40 by [i - 1] rounded additions of
    [(width - 40) / data.length]. *)
Theorem drawData_vertices (c : canvas) (dataSink : DataSink) (i : nat)
    (v : element) :
  data dataSink !! i = Some v ->
  length (drawData c dataSink) = length (data dataSink)
  /\ drawData c dataSink !! i
     = Some (match i with
             | O => moveTo Num.zero (getY c v)
             | S i' => lineTo (accumulated_x (xIncrement_of c dataSink) i')
                              (getY c v)
             end).
Proof.
  intros Hv. pose proof (lookup_lt_Some _ _ _ Hv) as Hlt.
  unfold drawData. split.
  - simpl. rewrite plot_loop_length. lia.
  - destruct i as [|i'].
    + simpl. rewrite Hv. reflexivity.
    + change ((?p :: ?l) !! S i') with (l !! i').
      rewrite plot_loop_lookup by lia.
      change (1 + i')%nat with (S i'). rewrite Hv. reflexivity.
Qed.

Lemma drawData_vertices_witness :
  let c := mkCanvas 640 256 in
  let ds := with_data (createDataSink (Num.of_Z 4) 2 3)
                      [Some 10; Some 20; Some 30] in
  length (drawData c ds) = length (data ds)
  /\ drawData c ds !! 2%nat
     = Some (lineTo (accumulated_x (xIncrement_of c ds) 1) (getY c (Some 30))).
Proof.
  apply (drawData_vertices (mkCanvas 640 256)
           (with_data (createDataSink (Num.of_Z 4) 2 3)
                      [Some 10; Some 20; Some 30])
           2 (Some 30)).
  reflexivity.
Defined.

(** * Further properties *)

(** ** Reading back what was assigned *)

Section ObjLookup.
Context {V : Type}.
Implicit Types (o : Obj.t V) (k : Obj.key) (v : V).

Lemma has_cons k k' v' o :
  Obj.has k ((k', v') :: o) = bool_decide (k' = k) || Obj.has k o.
Proof. reflexivity. Qed.

Lemma has_false_not_In k o : Obj.has k o = false -> ~ In k (Obj.keys o).
Proof.
  induction o as [|[k' v'] o IH]; [simpl; tauto|].
  rewrite has_cons. simpl. intros H [E|Hin].
  - subst k'. rewrite bool_decide_eq_true_2 in H by reflexivity. discriminate.
  - apply orb_false_elim in H as [_ H]. exact (IH H Hin).
Qed.

Lemma get_overwrite k v o k' :
  Obj.has k o = true ->
  Obj.get k' (Obj.overwrite k v o)
  = if decide (k = k') then Some v else Obj.get k' o.
Proof.
  induction o as [|[k0 v0] o IH]; [discriminate|].
  rewrite has_cons. intros H. simpl.
  destruct (decide (k0 = k)) as [->|Hne]; simpl.
  - destruct (decide (k = k')); reflexivity.
  - rewrite bool_decide_eq_false_2 in H by exact Hne. simpl in H.
    rewrite (IH H).
    destruct (decide (k0 = k')) as [->|]; [|reflexivity].
    destruct (decide (k = k')); [congruence|reflexivity].
Qed.

Lemma get_fresh k o : Obj.has k o = false -> Obj.get k o = None.
Proof.
  induction o as [|[k0 v0] o IH]; [reflexivity|].
  rewrite has_cons. intros H. apply orb_false_elim in H as [H0 H]. simpl.
  destruct (decide (k0 = k)) as [->|]; [|exact (IH H)].
  rewrite bool_decide_eq_true_2 in H0 by reflexivity. discriminate.
Qed.

Lemma get_insert_index n k v o k' :
  Obj.has k o = false ->
  Obj.get k' (Obj.insert_index n k v o)
  = if decide (k = k') then Some v else Obj.get k' o.
Proof.
  induction o as [|[k0 v0] o IH]; intros H.
  - simpl. destruct (decide (k = k')); reflexivity.
  - pose proof H as H'. rewrite has_cons in H'.
    apply orb_false_elim in H' as [H0 Ho].
    apply bool_decide_eq_false_1 in H0.
    simpl. destruct (Obj.array_index k0) as [n0|]; [destruct (n0 <? n)|]; simpl.
    + rewrite (IH Ho). destruct (decide (k0 = k')) as [->|]; [|reflexivity].
      destruct (decide (k = k')); [congruence|reflexivity].
    + destruct (decide (k = k')); reflexivity.
    + destruct (decide (k = k')); reflexivity.
Qed.

Lemma get_app_fresh k v o k' :
  Obj.has k o = false ->
  Obj.get k' (o ++ [(k, v)])
  = if decide (k = k') then Some v else Obj.get k' o.
Proof.
  induction o as [|[k0 v0] o IH]; intros H.
  - simpl. destruct (decide (k = k')); reflexivity.
  - rewrite has_cons in H. apply orb_false_elim in H as [H0 Ho].
    apply bool_decide_eq_false_1 in H0.
    simpl. rewrite (IH Ho). destruct (decide (k0 = k')) as [->|]; [|reflexivity].
    destruct (decide (k = k')); [congruence|reflexivity].
Qed.

(** [o[k] = v] followed by [o[k']] gives [v] for the same key and what
    [o[k']] gave before for another one. *)
Lemma get_set k v o k' :
  Obj.get k' (Obj.set k v o)
  = if decide (k = k') then Some v else Obj.get k' o.
Proof.
  unfold Obj.set. destruct (Obj.has k o) eqn:H.
  - apply get_overwrite. exact H.
  - destruct (Obj.array_index k).
    + apply get_insert_index. exact H.
    + apply get_app_fresh. exact H.
Qed.

Lemma NoDup_keys_set k v o :
  NoDup (Obj.keys o) -> NoDup (Obj.keys (Obj.set k v o)).
Proof.
  intros Hnd. pose proof (keys_set k v o) as Hk.
  unfold Obj.set in *. destruct (Obj.has k o) eqn:H.
  - rewrite keys_overwrite. exact Hnd.
  - destruct Hk as [Hk|(l1 & l2 & E1 & E2)].
    + rewrite Hk. exact Hnd.
    + apply has_false_not_In in H. rewrite E2, <- Permutation_middle.
      apply NoDup_cons. rewrite <- E1. split; [|exact Hnd].
      rewrite list_elem_of_In. exact H.
Qed.

End ObjLookup.

(** ** The order and the content of the map *)

Section ObjOrder.
Context {V : Type}.
Implicit Types (o : Obj.t V) (k : Obj.key) (v : V).

Lemma listed_before_not_index k k' :
  Obj.array_index k' = None -> listed_before k k'.
Proof.
  intros H. unfold listed_before. rewrite H.
  destruct (Obj.array_index k); exact I.
Qed.

Lemma sorted_insert_index n k v o :
  Obj.array_index k = Some n ->
  StronglySorted listed_before (Obj.keys o) ->
  StronglySorted listed_before (Obj.keys (Obj.insert_index n k v o)).
Proof.
  intros Hk. induction o as [|[k0 v0] o IH]; intros Hs.
  - simpl. repeat constructor.
  - simpl in Hs. apply StronglySorted_cons in Hs as [Hall Hs]. simpl.
    destruct (Obj.array_index k0) as [n0|] eqn:H0; [destruct (n0 <? n) eqn:Hlt|].
    + simpl. apply StronglySorted_cons. split; [|exact (IH Hs)].
      destruct (keys_insert_index n k v o) as (l1 & l2 & E1 & E2).
      rewrite E2. fold (Obj.keys o) in Hall. rewrite E1 in Hall.
      apply Forall_app in Hall as [Hl1 Hl2].
      apply Forall_app. split; [exact Hl1|]. constructor; [|exact Hl2].
      unfold listed_before. rewrite H0, Hk. apply Z.ltb_lt in Hlt. lia.
    + simpl. apply StronglySorted_cons. split.
      * constructor.
        -- unfold listed_before. rewrite Hk, H0. apply Z.ltb_ge in Hlt. lia.
        -- eapply Forall_impl; [exact Hall|]. intros x Hx.
           unfold listed_before in *. rewrite Hk. rewrite H0 in Hx.
           destruct (Obj.array_index x); [|exact I].
           apply Z.ltb_ge in Hlt. lia.
      * apply StronglySorted_cons. split; assumption.
    + simpl. apply StronglySorted_cons. split.
      * constructor.
        -- apply listed_before_not_index. exact H0.
        -- eapply Forall_impl; [exact Hall|]. intros x Hx.
           unfold listed_before in *. rewrite Hk. rewrite H0 in Hx.
           destruct (Obj.array_index x); [contradiction|exact I].
      * apply StronglySorted_cons. split; assumption.
Qed.

Lemma sorted_keys_set k v o :
  StronglySorted listed_before (Obj.keys o) ->
  StronglySorted listed_before (Obj.keys (Obj.set k v o)).
Proof.
  intros Hs. unfold Obj.set. destruct (Obj.has k o).
  - rewrite keys_overwrite. exact Hs.
  - destruct (Obj.array_index k) as [n|] eqn:Hk.
    + apply sorted_insert_index; assumption.
    + unfold Obj.keys. rewrite map_app. simpl.
      apply StronglySorted_app_2; [|exact Hs|repeat constructor].
      intros x1 x2 _ Hx2. apply list_elem_of_singleton in Hx2. subst x2.
      apply listed_before_not_index. exact Hk.
Qed.

Lemma In_overwrite k v o e :
  In e (Obj.overwrite k v o) -> e = (k, v) \/ In e o.
Proof.
  induction o as [|[k0 v0] o IH]; simpl; [tauto|].
  destruct (decide (k0 = k)); simpl; intros [H|H]; auto.
  destruct (IH H); auto.
Qed.

Lemma In_insert_index n k v o e :
  In e (Obj.insert_index n k v o) -> e = (k, v) \/ In e o.
Proof.
  induction o as [|[k0 v0] o IH]; simpl.
  - intros [H|[]]; auto.
  - destruct (Obj.array_index k0) as [n0|]; [destruct (n0 <? n)|]; simpl;
      intros [H|H]; auto.
    destruct (IH H); auto.
Qed.

(** After [o[k] = v] every property is the new one or was there before. *)
Lemma In_set k v o e : In e (Obj.set k v o) -> e = (k, v) \/ In e o.
Proof.
  unfold Obj.set. destruct (Obj.has k o).
  - apply In_overwrite.
  - destruct (Obj.array_index k).
    + apply In_insert_index.
    + intros H. apply in_app_or in H as [H|[H|[]]]; auto.
Qed.

End ObjOrder.

Lemma fold_perform_invariant (P : Obj.t element -> Prop) :
  (forall k v o, P o -> P (Obj.set k v o)) ->
  forall ws o, P o -> P (fold_left perform ws o).
Proof.
  intros Hstep. induction ws as [|w ws IH]; intros o Ho; simpl; [exact Ho|].
  apply IH. apply Hstep. exact Ho.
Qed.

Lemma get_fold_perform k ws : forall o acc,
  Obj.get k o = acc ->
  Obj.get k (fold_left perform ws o)
  = fold_left (fun acc w => if decide (fst w = k) then Some (snd w) else acc)
              ws acc.
Proof.
  induction ws as [|[k0 v0] ws IH]; intros o acc Ho; simpl; [exact Ho|].
  apply IH. unfold perform. simpl. rewrite get_set, Ho. reflexivity.
Qed.

Lemma In_fold_perform e ws : forall o,
  In e (fold_left perform ws o) -> In e ws \/ In e o.
Proof.
  induction ws as [|w ws IH]; intros o H; simpl in *; [auto|].
  destruct (IH _ H) as [Hw|Ho]; [auto|].
  apply In_set in Ho as [->|Ho]; [|auto].
  left. left. destruct w; reflexivity.
Qed.

(** X1: in the map that the first loop of [clearData] builds, the value
    under a key is the one of the last assignment made to that key: a later
    sample at the same time replaces an earlier one, and a key that was
    never assigned is absent. *)
Theorem build_dataMap_last_write (dataSink : DataSink) (k : Obj.key) :
  Obj.get k (build_dataMap dataSink) = last_write k (writes dataSink).
Proof.
  rewrite build_dataMap_writes. apply get_fold_perform. reflexivity.
Qed.

(** X2: the map has each key once, and [Object.entries] lists it with
    the keys that are array indices first, in ascending order, before all
    the keys that are not. *)
Theorem build_dataMap_entries_ordered (dataSink : DataSink) :
  NoDup (Obj.keys (build_dataMap dataSink))
  /\ StronglySorted listed_before
       (map fst (Obj.entries (build_dataMap dataSink))).
Proof.
  rewrite build_dataMap_writes. split.
  - apply (fold_perform_invariant (fun o => NoDup (Obj.keys o))).
    + intros k v o. apply NoDup_keys_set.
    + apply NoDup_nil_2.
  - apply (fold_perform_invariant
             (fun o => StronglySorted listed_before (Obj.keys o))).
    + intros k v o. apply sorted_keys_set.
    + constructor.
Qed.

(** ** Where the output of [clearData] comes from *)

Lemma thin_sublist epsilon entries : forall w,
  exists l,
    l `sublist_of` entries
    /\ outputData (fold_left (thin_step epsilon) entries w)
       = outputData w ++ map snd l.
Proof.
  induction entries as [|e entries IH]; intros w; simpl.
  - exists []. split; [constructor|]. symmetry. apply app_nil_r.
  - destruct (IH (thin_step epsilon w e)) as (l & Hl & Hout).
    unfold thin_step in Hout |- *.
    destruct (accepts w (Obj.parseFloat (fst e))).
    + exists (e :: l). split; [apply sublist_skip; exact Hl|].
      rewrite Hout. simpl. rewrite <- app_assoc. reflexivity.
    + exists l. split; [apply sublist_cons; exact Hl|exact Hout].
Qed.

Lemma In_frame_writes inc samples n e : forall j0 time,
  In e (frame_writes inc samples j0 n time) ->
  exists j, (j0 <= j < j0 + n)%nat /\ snd e = samples !! j.
Proof.
  induction n as [|n IH]; intros j0 time; simpl; [tauto|].
  intros [<-|H].
  - exists j0. split; [lia|reflexivity].
  - destruct (IH _ _ H) as (j & Hj & Hv). exists j. split; [lia|exact Hv].
Qed.

Lemma In_writes (dataSink : DataSink) e :
  In e (writes dataSink) ->
  exists i f j,
    rawData dataSink !! i = Some f
    /\ Num.lt (Frame.timeStart f) Num.zero = false
    /\ (j < bufferLength dataSink)%nat
    /\ snd e = Frame.data f !! j.
Proof.
  unfold writes. intros H.
  apply in_concat in H as (l & Hl & He).
  apply in_map_iff in Hl as (f & <- & Hf).
  apply list_elem_of_In, list_elem_of_lookup_1 in Hf as [i Hi].
  unfold step_writes in He.
  destruct (Num.lt (Frame.timeStart f) Num.zero) eqn:Hlt; [destruct He|].
  apply In_frame_writes in He as (j & Hj & Hv).
  exists i, f, j.
  split; [exact Hi|]. split; [exact Hlt|]. split; [lia|exact Hv].
Qed.

(** X3: when [clearData] ends normally, [data] is the values of some of
    the entries of the map, taken in the order in which [Object.entries]
    lists them; it ends otherwise only for a sink without any frame. *)
Theorem clearData_output_in_entries_order (dataSink : DataSink) :
  match clearData dataSink with
  | Normal after =>
      exists l,
        l `sublist_of` Obj.entries (build_dataMap dataSink)
        /\ data after = map snd l
  | Threw _ _ => rawData dataSink = []
  end.
Proof.
  unfold clearData. destruct (rawData dataSink !! 0%nat) as [f0|] eqn:H0.
  - simpl.
    destruct (thin_sublist (epsilon_of dataSink)
                (Obj.entries (build_dataMap dataSink))
                (initial_window (epsilon_of dataSink) f0)) as (l & Hl & Hout).
    exists l. split; [exact Hl|exact Hout].
  - destruct (rawData dataSink); [reflexivity|discriminate].
Qed.

(** X4: when [clearData] ends normally, every element of [data] is a
    sample [f.data[j]] with [j < bufferLength] of a frame [f] of [rawData]
    that passed the test of the first loop ([f.timeStart < 0] is false); the
    element is [undefined] only if [f.data] is shorter than [bufferLength]. *)
Theorem clearData_output_from_frames (dataSink : DataSink) :
  match clearData dataSink with
  | Normal after =>
      Forall (fun v =>
                exists i f j,
                  rawData dataSink !! i = Some f
                  /\ Num.lt (Frame.timeStart f) Num.zero = false
                  /\ (j < bufferLength dataSink)%nat
                  /\ v = Frame.data f !! j)
             (data after)
  | Threw _ _ => rawData dataSink = []
  end.
Proof.
  unfold clearData. destruct (rawData dataSink !! 0%nat) as [f0|] eqn:H0.
  - simpl.
    destruct (thin_sublist (epsilon_of dataSink)
                (Obj.entries (build_dataMap dataSink))
                (initial_window (epsilon_of dataSink) f0)) as (l & Hl & Hout).
    rewrite Hout. simpl. apply Forall_forall. intros v Hv.
    apply list_elem_of_In, in_map_iff in Hv as (e & <- & He).
    apply list_elem_of_In in He.
    apply (sublist_subseteq _ _ Hl) in He.
    apply list_elem_of_In in He. unfold Obj.entries in He.
    rewrite build_dataMap_writes in He.
    apply In_fold_perform in He as [Hw|[]].
    apply In_writes in Hw. exact Hw.
  - destruct (rawData dataSink); [reflexivity|discriminate].
Qed.

(** X5: [clearData] does not read [data]: run on its own result it ends
    in the same way with the same sink, so a second run changes nothing. *)
Theorem clearData_idempotent (dataSink : DataSink) :
  clearData (sink_after (clearData dataSink)) = clearData dataSink.
Proof.
  unfold clearData. destruct (rawData dataSink !! 0%nat) as [f0|] eqn:H0; simpl.
  - change (rawData (with_data dataSink ?d)) with (rawData dataSink).
    rewrite H0. reflexivity.
  - rewrite H0. reflexivity.
Qed.

Lemma clearData_fresh (rate : number) (W C : nat) :
  clearData (createDataSink rate W (S C))
  = Normal (with_data (createDataSink rate W (S C)) []).
Proof.
  rewrite (clearData_Normal _ (fresh_frame W)).
  - unfold build_dataMap. rewrite fold_fill_step_skipped; [reflexivity|].
    simpl. rewrite push_frames_repeat. simpl.
    constructor; [reflexivity|].
    apply Forall_forall. intros f Hf.
    apply list_elem_of_In, repeat_spec in Hf. subst f. reflexivity.
  - simpl. rewrite push_frames_repeat. reflexivity.
Qed.

(** X6: the sink just built has no populated frame: if it has at least
    one frame [clearData] ends normally on it with an empty [data], and with
    no frame at all [clearData] throws. *)
Theorem clearData_createDataSink (rate : number) (W C : nat) :
  clearData (createDataSink rate W C)
  = match C with
    | O => Threw TypeError (createDataSink rate W C)
    | S _ => Normal (with_data (createDataSink rate W C) [])
    end.
Proof.
  destruct C as [|C]; [reflexivity|apply clearData_fresh].
Qed.

(** ** One tick *)

Lemma length_getByteTimeDomainData (bytes arr : list Z) :
  length (getByteTimeDomainData bytes arr) = length arr.
Proof.
  unfold getByteTimeDomainData.
  rewrite length_app, length_take, length_drop. lia.
Qed.

(** X7: a tick that passes the test on an index that has a frame ends by
    scheduling the tick of the next index; it puts the clock and the
    analyser's bytes into that frame, whose array keeps its length, and
    changes nothing else: the other frames, the number of frames,
    [sampleRate], [bufferLength], [maxBufferIndex] and [data] are as
    before. *)
Theorem gatherData_samples_one_frame env dataSink endTime currentIndex f :
  stop_test env dataSink endTime currentIndex = false ->
  rawData dataSink !! currentIndex = Some f ->
  exists ds' bytes,
    gatherData env dataSink endTime currentIndex = Scheduled ds' (S currentIndex)
    /\ rawData ds' !! currentIndex = Some (Frame.mk (currentTime env) bytes)
    /\ bytes = getByteTimeDomainData (timeDomain env) (Frame.data f)
    /\ length bytes = length (Frame.data f)
    /\ (forall j, j <> currentIndex -> rawData ds' !! j = rawData dataSink !! j)
    /\ length (rawData ds') = length (rawData dataSink)
    /\ sampleRate ds' = sampleRate dataSink
    /\ bufferLength ds' = bufferLength dataSink
    /\ maxBufferIndex ds' = maxBufferIndex dataSink
    /\ data ds' = data dataSink.
Proof.
  intros Hs Hf.
  destruct (gatherData_in_range _ _ _ _ _ Hs Hf) as [Hg Hl].
  eexists _, _. split; [exact Hg|]. simpl.
  split; [exact Hl|]. split; [reflexivity|].
  split; [apply length_getByteTimeDomainData|].
  split; [|split; [apply length_insert|repeat split]].
  intros j Hj. apply list_lookup_insert_ne. congruence.
Qed.

Lemma gatherData_samples_one_frame_witness :
  let env := mkEnv Num.zero [128; 129; 130; 131] None in
  let ds := createDataSink (Num.of_Z 4) 2 3 in
  exists ds' bytes,
    gatherData env ds Num.one 1 = Scheduled ds' 2
    /\ rawData ds' !! 1%nat = Some (Frame.mk (currentTime env) bytes)
    /\ bytes = getByteTimeDomainData (timeDomain env) (Frame.data (fresh_frame 2))
    /\ length bytes = length (Frame.data (fresh_frame 2))
    /\ (forall j, j <> 1%nat -> rawData ds' !! j = rawData ds !! j)
    /\ length (rawData ds') = length (rawData ds)
    /\ sampleRate ds' = sampleRate ds
    /\ bufferLength ds' = bufferLength ds
    /\ maxBufferIndex ds' = maxBufferIndex ds
    /\ data ds' = data ds.
Proof.
  apply (gatherData_samples_one_frame
           (mkEnv Num.zero [128; 129; 130; 131] None)
           (createDataSink (Num.of_Z 4) 2 3) Num.one 1 (fresh_frame 2)).
  - reflexivity.
  - reflexivity.
Defined.

(** X8: a tick on which the test fires (the clock has reached the
    deadline or the index is above [maxBufferIndex]) schedules nothing and
    writes no frame; when the sink has a frame 0 and there is a canvas it
    returns after [clearData] and then [drawData] on the sink that
    [clearData] left. *)
Theorem gatherData_stops env dataSink endTime currentIndex f0 c :
  stop_test env dataSink endTime currentIndex = true ->
  rawData dataSink !! 0%nat = Some f0 ->
  the_canvas env = Some c ->
  exists out,
    clearData dataSink = Normal (with_data dataSink out)
    /\ gatherData env dataSink endTime currentIndex
       = Stopped (with_data dataSink out) (drawData c (with_data dataSink out))
    /\ rawData (with_data dataSink out) = rawData dataSink.
Proof.
  intros Hs H0 Hc. unfold gatherData. rewrite Hs.
  rewrite (clearData_Normal _ f0 H0), Hc.
  eexists. repeat split.
Qed.

Lemma gatherData_stops_witness :
  let env := mkEnv Num.one [128; 129] (Some (mkCanvas 640 256)) in
  exists out,
    clearData scenario = Normal (with_data scenario out)
    /\ gatherData env scenario Num.one 3
       = Stopped (with_data scenario out)
                 (drawData (mkCanvas 640 256) (with_data scenario out))
    /\ rawData (with_data scenario out) = rawData scenario.
Proof.
  apply (gatherData_stops (mkEnv Num.one [128; 129] (Some (mkCanvas 640 256)))
           scenario Num.one 3 (Frame.mk (quarter 0) [10; 20]) (mkCanvas 640 256)).
  - reflexivity.
  - reflexivity.
  - reflexivity.
Defined.

(** ** Runs of ticks *)

(** A run that has scheduled the tick of [next] goes on with that tick. *)
Lemma ticks_succ_r env endTime n : forall dataSink currentIndex ds' next,
  ticks n env dataSink endTime currentIndex = Scheduled ds' next ->
  ticks (S n) env dataSink endTime currentIndex
  = gatherData (env next) ds' endTime next.
Proof.
  induction n as [|n IH]; intros dataSink currentIndex ds' next H.
  - simpl in H. injection H as <- <-. simpl.
    destruct (gatherData (env currentIndex) dataSink endTime currentIndex);
      reflexivity.
  - change (ticks (S (S n)) env dataSink endTime currentIndex)
      with (match gatherData (env currentIndex) dataSink endTime currentIndex with
            | Scheduled ds1 nextIndex => ticks (S n) env ds1 endTime nextIndex
            | o => o
            end).
    simpl in H.
    destruct (gatherData (env currentIndex) dataSink endTime currentIndex)
      as [ds1 p|ds1 i1|e ds1]; try discriminate.
    apply (IH _ _ _ _ H).
Qed.

Lemma ticks_populate_from env endTime n : forall dataSink currentIndex,
  (forall i, (currentIndex <= i < currentIndex + n)%nat ->
             Num.lt (currentTime (env i)) endTime = true) ->
  (currentIndex + n <= length (rawData dataSink))%nat ->
  (currentIndex + n <= S (maxBufferIndex dataSink))%nat ->
  exists ds',
    ticks n env dataSink endTime currentIndex = Scheduled ds' (currentIndex + n)
    /\ length (rawData ds') = length (rawData dataSink)
    /\ (forall i f, (currentIndex <= i < currentIndex + n)%nat ->
                    rawData dataSink !! i = Some f ->
                    rawData ds' !! i = Some (sampled env i f))
    /\ (forall i, (i < currentIndex \/ currentIndex + n <= i)%nat ->
                  rawData ds' !! i = rawData dataSink !! i)
    /\ sampleRate ds' = sampleRate dataSink
    /\ bufferLength ds' = bufferLength dataSink
    /\ maxBufferIndex ds' = maxBufferIndex dataSink
    /\ data ds' = data dataSink.
Proof.
  induction n as [|n IH]; intros dataSink currentIndex Hclock Hlen Hmax.
  - exists dataSink. simpl. rewrite Nat.add_0_r.
    split; [reflexivity|]. split; [reflexivity|].
    split; [intros i f Hi; lia|]. repeat split.
  - assert (Hs : stop_test (env currentIndex) dataSink endTime currentIndex = false)
      by (apply stop_test_before_deadline; [apply Hclock; lia|lia]).
    destruct (lookup_lt_is_Some_2 (rawData dataSink) currentIndex) as [f Hf]; [lia|].
    destruct (gatherData_in_range _ _ _ _ _ Hs Hf) as [Hg _].
    set (ds1 := with_rawData dataSink
                  (<[currentIndex := sampled env currentIndex f]> (rawData dataSink))).
    change (gatherData (env currentIndex) dataSink endTime currentIndex
            = Scheduled ds1 (S currentIndex)) in Hg.
    destruct (IH ds1 (S currentIndex))
      as (ds' & Ht & Hl & Hin & Hout & Hsr & Hbl & Hmb & Hd).
    + intros i Hi. apply Hclock. lia.
    + simpl. rewrite length_insert. lia.
    + simpl. lia.
    + exists ds'. simpl. rewrite Hg.
      replace (currentIndex + S n)%nat with (S currentIndex + n)%nat by lia.
      split; [exact Ht|].
      split; [rewrite Hl; simpl; apply length_insert|].
      split; [|split; [|repeat split; assumption]].
      * intros i g Hi Hg'. destruct (decide (i = currentIndex)) as [->|Hne].
        -- rewrite Hout by lia. simpl.
           rewrite list_lookup_insert_eq by (eapply lookup_lt_Some; exact Hf).
           congruence.
        -- apply Hin; [lia|]. simpl.
           rewrite list_lookup_insert_ne by congruence. exact Hg'.
      * intros i Hi. rewrite Hout by lia. simpl.
        apply list_lookup_insert_ne. lia.
Qed.

(** X9: while the clock stays before the deadline, [n] ticks from index 0
    (with [n] at most the number of frames and at most [maxBufferIndex + 1])
    populate exactly the first [n] frames, frame [i] with the clock and the
    bytes read at tick [i], leave every later frame and every other field
    of the sink as they were, and schedule the tick of index [n]. *)
Theorem ticks_populate_prefix env endTime n dataSink :
  (forall i, (i < n)%nat -> Num.lt (currentTime (env i)) endTime = true) ->
  (n <= length (rawData dataSink))%nat ->
  (n <= S (maxBufferIndex dataSink))%nat ->
  exists ds',
    ticks n env dataSink endTime 0 = Scheduled ds' n
    /\ length (rawData ds') = length (rawData dataSink)
    /\ (forall i f, (i < n)%nat -> rawData dataSink !! i = Some f ->
                    rawData ds' !! i = Some (sampled env i f))
    /\ (forall i, (n <= i)%nat -> rawData ds' !! i = rawData dataSink !! i)
    /\ sampleRate ds' = sampleRate dataSink
    /\ bufferLength ds' = bufferLength dataSink
    /\ maxBufferIndex ds' = maxBufferIndex dataSink
    /\ data ds' = data dataSink.
Proof.
  intros Hclock Hlen Hmax.
  destruct (ticks_populate_from env endTime n dataSink 0)
    as (ds' & Ht & Hl & Hin & Hout & Hrest); [intros i Hi; apply Hclock; lia|lia|lia|].
  exists ds'. split; [exact Ht|]. split; [exact Hl|].
  split; [intros i f Hi; apply Hin; lia|].
  split; [intros i Hi; apply Hout; lia|exact Hrest].
Qed.

Lemma ticks_populate_prefix_witness :
  let ds := createDataSink (Num.of_Z 4) 2 3 in
  exists ds',
    ticks 2 (fun _ => stalled) ds Num.one 0 = Scheduled ds' 2
    /\ length (rawData ds') = length (rawData ds)
    /\ (forall i f, (i < 2)%nat -> rawData ds !! i = Some f ->
                    rawData ds' !! i = Some (sampled (fun _ => stalled) i f))
    /\ (forall i, (2 <= i)%nat -> rawData ds' !! i = rawData ds !! i)
    /\ sampleRate ds' = sampleRate ds
    /\ bufferLength ds' = bufferLength ds
    /\ maxBufferIndex ds' = maxBufferIndex ds
    /\ data ds' = data ds.
Proof.
  apply (ticks_populate_prefix (fun _ => stalled) Num.one 2
           (createDataSink (Num.of_Z 4) 2 3)).
  - intros i _. reflexivity.
  - simpl. lia.
  - simpl. lia.
Defined.

Lemma gatherData_Scheduled_inv env dataSink endTime currentIndex ds' next :
  gatherData env dataSink endTime currentIndex = Scheduled ds' next ->
  next = S currentIndex
  /\ (currentIndex <= maxBufferIndex dataSink)%nat
  /\ maxBufferIndex ds' = maxBufferIndex dataSink.
Proof.
  unfold gatherData, stop_test.
  destruct (Num.ge (currentTime env) endTime); simpl.
  - destruct (clearData dataSink); [destruct (the_canvas env)|]; discriminate.
  - destruct (maxBufferIndex dataSink <? currentIndex)%nat eqn:Hlt.
    + destruct (clearData dataSink); [destruct (the_canvas env)|]; discriminate.
    + destruct (rawData dataSink !! currentIndex); [|discriminate].
      intros H. injection H as <- <-. apply Nat.ltb_ge in Hlt. auto.
Qed.

Lemma ticks_end env endTime n : forall dataSink currentIndex,
  (0 < n)%nat ->
  (maxBufferIndex dataSink + 2 <= currentIndex + n)%nat ->
  is_scheduled (ticks n env dataSink endTime currentIndex) = false.
Proof.
  induction n as [|n IH]; intros dataSink currentIndex Hn Hmax; [lia|].
  simpl.
  destruct (gatherData (env currentIndex) dataSink endTime currentIndex)
    as [ds1 p|ds1 next|e ds1] eqn:Hg; [reflexivity| |reflexivity].
  apply gatherData_Scheduled_inv in Hg as (-> & Hle & Hm).
  destruct n as [|n]; [lia|].
  apply IH; [lia|]. rewrite Hm. lia.
Qed.

(** X10: whatever the clock, the analyser and the sink, the loop started
    at index 0 has ended after at most [maxBufferIndex + 2] ticks: the last
    of them stops or throws, and schedules no further tick. *)
Theorem ticks_terminate env dataSink endTime :
  is_scheduled (ticks (maxBufferIndex dataSink + 2) env dataSink endTime 0)
  = false.
Proof. apply ticks_end; lia. Qed.

(** X11: a whole capture.  If the clock is before the deadline at the
    ticks 0 to [n - 1] and has reached it at tick [n] (with [n] at most the
    number of frames and at most [maxBufferIndex + 1]), and there is a
    canvas, then the run of [n + 1] ticks ends by returning after
    [clearData] and [drawData] on a sink whose first [n] frames hold what the
    ticks read and whose later frames are untouched. *)
Theorem run_until_deadline env endTime n dataSink f0 c :
  (forall i, (i < n)%nat -> Num.lt (currentTime (env i)) endTime = true) ->
  Num.ge (currentTime (env n)) endTime = true ->
  (n <= length (rawData dataSink))%nat ->
  (n <= S (maxBufferIndex dataSink))%nat ->
  rawData dataSink !! 0%nat = Some f0 ->
  the_canvas (env n) = Some c ->
  exists ds' out,
    ticks (S n) env dataSink endTime 0
    = Stopped (with_data ds' out) (drawData c (with_data ds' out))
    /\ clearData ds' = Normal (with_data ds' out)
    /\ (forall i f, (i < n)%nat -> rawData dataSink !! i = Some f ->
                    rawData ds' !! i = Some (sampled env i f))
    /\ (forall i, (n <= i)%nat -> rawData ds' !! i = rawData dataSink !! i).
Proof.
  intros Hclock Hge Hlen Hmax H0 Hc.
  destruct (ticks_populate_from env endTime n dataSink 0)
    as (ds' & Ht & Hl & Hin & Hout & _); [intros i Hi; apply Hclock; lia|lia|lia|].
  simpl in Ht.
  destruct (lookup_lt_is_Some_2 (rawData ds') 0) as [g0 Hg0].
  { rewrite Hl. eapply lookup_lt_Some. exact H0. }
  exists ds', (outputData
                 (fold_left (thin_step (epsilon_of ds'))
                    (Obj.entries (build_dataMap ds'))
                    (initial_window (epsilon_of ds') g0))).
  split; [|split; [apply clearData_Normal; exact Hg0|split]].
  - rewrite (ticks_succ_r _ _ _ _ _ _ _ Ht).
    unfold gatherData, stop_test. rewrite Hge. simpl.
    rewrite (clearData_Normal _ g0 Hg0), Hc. reflexivity.
  - intros i f Hi. apply Hin. lia.
  - intros i Hi. apply Hout. lia.
Qed.

Lemma run_until_deadline_witness :
  let env := fun i : nat =>
    mkEnv (Num.of_nat i) [128; 129] (Some (mkCanvas 640 256)) in
  let ds := createDataSink (Num.of_Z 4) 2 3 in
  exists ds' out,
    ticks 3 env ds (Num.of_Z 2) 0
    = Stopped (with_data ds' out) (drawData (mkCanvas 640 256) (with_data ds' out))
    /\ clearData ds' = Normal (with_data ds' out)
    /\ (forall i f, (i < 2)%nat -> rawData ds !! i = Some f ->
                    rawData ds' !! i = Some (sampled env i f))
    /\ (forall i, (2 <= i)%nat -> rawData ds' !! i = rawData ds !! i).
Proof.
  apply (run_until_deadline
           (fun i : nat => mkEnv (Num.of_nat i) [128; 129] (Some (mkCanvas 640 256)))
           (Num.of_Z 2) 2 (createDataSink (Num.of_Z 4) 2 3)
           (fresh_frame 2) (mkCanvas 640 256)).
  - intros i Hi. destruct i as [|[|i]]; [reflexivity|reflexivity|lia].
  - reflexivity.
  - simpl. lia.
  - simpl. lia.
  - reflexivity.
  - reflexivity.
Defined.

(** ** The polyline and the deadline that has passed *)

Lemma getY_undefined (c : canvas) : getY c None = Num.nan.
Proof. reflexivity. Qed.

Lemma plot_loop_lineTo c inc samples n : forall i x,
  forallb is_lineTo (plot_loop c inc samples i n x) = true.
Proof.
  induction n as [|n IH]; intros i x; simpl; [reflexivity|]. apply IH.
Qed.

(** X12: the path of [drawData] starts with its only [moveTo], at
    abscissa 0, and goes on with one [lineTo] for each sample after the
    first; for an empty [data] the ordinate of the [moveTo] is NaN and there
    is no [lineTo], so that nothing is drawn. *)
Theorem drawData_shape (c : canvas) (dataSink : DataSink) :
  exists y rest,
    drawData c dataSink = moveTo Num.zero y :: rest
    /\ forallb is_lineTo rest = true
    /\ length rest = (length (data dataSink) - 1)%nat
    /\ (data dataSink = [] -> y = Num.nan /\ rest = []).
Proof.
  unfold drawData. eexists _, _. split; [reflexivity|].
  split; [apply plot_loop_lineTo|]. split; [apply plot_loop_length|].
  intros ->. split; reflexivity.
Qed.

(** X13: when the first tick already finds the clock at the deadline, on
    the sink as it was built (with at least one frame) and with a canvas, no
    frame is sampled: the tick returns with an empty [data] and a path
    that is the single [moveTo(0, NaN)]. *)
Theorem expired_deadline_draws_nothing env (rate : number) (W C : nat)
    (endTime : number) (c : canvas) :
  Num.ge (currentTime env) endTime = true ->
  the_canvas env = Some c ->
  gatherData env (createDataSink rate W (S C)) endTime 0
  = Stopped (with_data (createDataSink rate W (S C)) [])
            [moveTo Num.zero Num.nan].
Proof.
  intros Hge Hc. unfold gatherData, stop_test. rewrite Hge. simpl orb. cbv iota.
  rewrite clearData_fresh, Hc. reflexivity.
Qed.

Lemma expired_deadline_draws_nothing_witness :
  gatherData (mkEnv Num.one [128; 129] (Some (mkCanvas 1000 1000)))
             (createDataSink (Num.of_Z 48000) 4 (S 2)) Num.one 0
  = Stopped (with_data (createDataSink (Num.of_Z 48000) 4 (S 2)) [])
            [moveTo Num.zero Num.nan].
Proof.
  apply (expired_deadline_draws_nothing
           (mkEnv Num.one [128; 129] (Some (mkCanvas 1000 1000)))
           (Num.of_Z 48000) 4 2 Num.one (mkCanvas 1000 1000)).
  - reflexivity.
  - reflexivity.
Defined.

(** ** The toggles and the audio context *)

(** X14: the redraw made by a click on a toggle uses the values from
    before the click.  With a canvas, after a click on [Show axes] the
    surface was cleared and the axes were stroked exactly when the toggle
    now reads off; after a click on [Show grid] the grid was drawn exactly
    when that toggle now reads off; the other toggle is drawn as it
    reads. *)
Theorem toggle_redraw_is_stale (c : canvas) (t : toggles) :
  (exists ops,
     snd (onToggleAxes (Some c) t) = inl ops
     /\ existsb is_stroke ops = negb (showAxes (fst (onToggleAxes (Some c) t)))
     /\ existsb is_grid ops = showGrid (fst (onToggleAxes (Some c) t)))
  /\ (exists ops,
        snd (onToggleGrid (Some c) t) = inl ops
        /\ existsb is_grid ops = negb (showGrid (fst (onToggleGrid (Some c) t)))
        /\ existsb is_stroke ops = showAxes (fst (onToggleGrid (Some c) t))).
Proof.
  destruct t as [l g a].
  split; eexists; (split; [reflexivity|]); destruct g, a; split; reflexivity.
Qed.

(** X15: the audio context is created at most once: the first call
    returns the context that the reference holds, or stores the one it
    creates, and every later call returns that same context and leaves the
    reference alone, whatever context it could have created. *)
Theorem getAudioContext_once {Ctx : Type} (aCtxRef : option Ctx)
    (fresh1 fresh2 : Ctx) :
  let first := getAudioContext aCtxRef fresh1 in
  let second := getAudioContext (snd first) fresh2 in
  snd first = Some (fst first)
  /\ fst second = fst first
  /\ snd second = snd first
  /\ (forall held, aCtxRef = Some held -> fst first = held).
Proof.
  destruct aCtxRef as [held|]; simpl; repeat split; congruence.
Qed.

(** ** Frames that were never sampled *)

Lemma fold_fill_step_filter inc bl frames : forall M,
  fold_left (fill_step inc bl) (List.filter not_skipped frames) M
  = fold_left (fill_step inc bl) frames M.
Proof.
  induction frames as [|f frames IH]; intros M; simpl; [reflexivity|].
  assert (Hstep : Num.lt (Frame.timeStart f) Num.zero = true ->
                  fill_step inc bl M f = M)
    by (intros H; unfold fill_step; rewrite H; reflexivity).
  unfold not_skipped at 1.
  destruct (Num.lt (Frame.timeStart f) Num.zero); simpl.
  - rewrite Hstep by reflexivity. apply IH.
  - apply IH.
Qed.

(** X16: apart from frame 0, whose [timeStart] sets the window, the
    frames that were never sampled play no part: dropping from [rawData]
    every frame after the first whose [timeStart] is negative leaves the
    [data] computed by [clearData] the same.  In particular the output does
    not depend on how many frames were allocated. *)
Theorem clearData_ignores_skipped (rate : number) (bl mbi : nat)
    (f0 : Frame.t) (rest : list Frame.t) (d : list element) :
  data (sink_after
          (clearData (mkDataSink rate bl mbi
                        (f0 :: List.filter not_skipped rest) d)))
  = data (sink_after (clearData (mkDataSink rate bl mbi (f0 :: rest) d))).
Proof.
  unfold clearData, build_dataMap. simpl.
  rewrite fold_fill_step_filter. reflexivity.
Qed.
